(** * noderowallet: the integer-preserving JSON codec and the RPC dispatcher

    A shallow embedding of [src/index.ts]: the prepass [stringifyInts], the
    [JSON.parse] reviver that promotes marked strings to BigInt, the
    [MoneroRpcError] constructor and the body of [NoderoWallet.request].

    JavaScript strings are sequences of UTF-16 code units, JavaScript numbers
    are IEEE-754 binary64 values ([spec_float] with [prec = 53] and
    [emax = 1024]), BigInts are [Z]. *)

From Stdlib Require Import List ZArith NArith Bool Lia Ascii String SpecFloat.
Import ListNotations.

Local Open Scope string_scope.
Local Open Scope list_scope.
Local Open Scope N_scope.

(** ** Strings *)

(** A UTF-16 code unit. *)
Abbreviation char16 := N (only parsing).

(** A JavaScript string. *)
Abbreviation jsstr := (list N) (only parsing).

Definition jsstr_eqb (a b : jsstr) : bool :=
  if list_eq_dec N.eq_dec a b then true else false.

(** Source text for examples: the code units of an ASCII literal, where an
    apostrophe stands for the double quote (code unit 34). *)
Definition txt_char (a : ascii) : char16 :=
  let c := N_of_ascii a in if c =? 39 then 34 else c.

Definition txt (s : string) : jsstr := List.map txt_char (list_ascii_of_string s).

(** Several lines of source text joined by line feeds. *)
Fixpoint lines (l : list string) : jsstr :=
  match l with
  | [] => []
  | [s] => txt s
  | s :: l' => txt s ++ 10 :: lines l'
  end.

Module Ch.
Definition quote : char16 := 34.
Definition backslash : char16 := 92.
Definition colon : char16 := 58.
Definition comma : char16 := 44.
Definition space : char16 := 32.
Definition minus : char16 := 45.
Definition plus : char16 := 43.
Definition dot : char16 := 46.
Definition letter_n : char16 := 110.
Definition lbrace : char16 := 123.
Definition rbrace : char16 := 125.
Definition lbracket : char16 := 91.
Definition rbracket : char16 := 93.
End Ch.

(** [\d] *)
Definition is_digit (c : char16) : bool := (48 <=? c) && (c <=? 57).

(** ECMAScript LineTerminator: what [.] refuses and what [$] stops at under
    the [m] flag. *)
Definition is_line_terminator (c : char16) : bool :=
  (c =? 10) || (c =? 13) || (c =? 8232) || (c =? 8233).

(** ** [stringifyInts]
<<
const stringifyInts = (json: string) => {
	return json.replaceAll(/(?<=".+?": )(\d+)(?=,?[^0-9]?$)/gm, '"$1n"')
}
>> *)
Module Prepass.

(** [$] under the [m] flag: end of input, or a line terminator next. *)
Definition at_eol (s : jsstr) : bool :=
  match s with
  | [] => true
  | c :: _ => is_line_terminator c
  end.

(** [[^0-9]?$], the optional character tried first. *)
Definition opt_nondigit_eol (s : jsstr) : bool :=
  match s with
  | c :: t => (negb (is_digit c) && at_eol t) || at_eol s
  | [] => at_eol s
  end.

(** The lookahead [(?=,?[^0-9]?$)], the optional comma tried first. *)
Definition lookahead (s : jsstr) : bool :=
  match s with
  | c :: t => ((c =? Ch.comma) && opt_nondigit_eol t) || opt_nondigit_eol s
  | [] => opt_nondigit_eol s
  end.

(** Going leftwards over [.] characters until a double quote. *)
Fixpoint quote_before (before : jsstr) : bool :=
  match before with
  | [] => false
  | c :: b =>
      if c =? Ch.quote then true
      else if is_line_terminator c then false
      else quote_before b
  end.

(** The lookbehind [(?<=".+?": )]. [before] is the text to the left of the
    position, nearest character first: a space, a colon, a quote, at least
    one [.] character, and a quote further left with only [.] characters
    in between. *)
Definition lookbehind (before : jsstr) : bool :=
  match before with
  | sp :: co :: q :: x :: b =>
      (sp =? Ch.space) && (co =? Ch.colon) && (q =? Ch.quote)
      && negb (is_line_terminator x) && quote_before b
  | _ => false
  end.

(** [(\d+)] followed by the lookahead, at the head of [s]: the greedy run
    first, then every shorter one. Returns the digits captured. *)
Fixpoint match_digits (s : jsstr) : option jsstr :=
  match s with
  | c :: t =>
      if is_digit c then
        match match_digits t with
        | Some ds => Some (c :: ds)
        | None => if lookahead t then Some [c] else None
        end
      else None
  | [] => None
  end.

(** The whole pattern at one position. *)
Definition match_at (before s : jsstr) : option jsstr :=
  if lookbehind before then match_digits s else None.

(** The replacement ['"$1n"']. *)
Definition replacement (ds : jsstr) : jsstr :=
  Ch.quote :: ds ++ [Ch.letter_n; Ch.quote].

(** [replaceAll] with a global pattern: matches are looked for from left
    to right, the text between them is copied, and the search resumes
    where a match ended. [skip] counts the characters of the last match
    that are still to be passed over. *)
Fixpoint replace_from (before : jsstr) (skip : nat) (s : jsstr) : jsstr :=
  match s with
  | [] => []
  | c :: t =>
      match skip with
      | S k => replace_from (c :: before) k t
      | O =>
          match match_at before s with
          | Some ds =>
              replacement ds
              ++ replace_from (c :: before) (Nat.pred (List.length ds)) t
          | None => c :: replace_from (c :: before) 0 t
          end
      end
  end.

End Prepass.

Definition stringifyInts (json : jsstr) : jsstr := Prepass.replace_from [] 0 json.

(** ** Values *)

(** A JavaScript number. *)
Definition number := spec_float.

#[warnings="-register-all"]
Inductive value : Type :=
| VUndefined
| VNull
| VBool (b : bool)
| VNumber (x : number)
| VBigInt (z : Z)
| VString (s : jsstr)
| VSymbol
| VFunction
| VArray (elems : list value)
| VObject (props : list (jsstr * value)).

Inductive type_tag :=
| TUndefined | TObject | TBoolean | TNumber | TBigint | TString | TSymbol | TFunction.

(** The [typeof] operator. *)
Definition typeof (v : value) : type_tag :=
  match v with
  | VUndefined => TUndefined
  | VNull => TObject
  | VBool _ => TBoolean
  | VNumber _ => TNumber
  | VBigInt _ => TBigint
  | VString _ => TString
  | VSymbol => TSymbol
  | VFunction => TFunction
  | VArray _ => TObject
  | VObject _ => TObject
  end.

Definition type_tag_eqb (a b : type_tag) : bool :=
  match a, b with
  | TUndefined, TUndefined | TObject, TObject | TBoolean, TBoolean
  | TNumber, TNumber | TBigint, TBigint | TString, TString
  | TSymbol, TSymbol | TFunction, TFunction => true
  | _, _ => false
  end.

(** [v != null]: neither [null] nor [undefined]. *)
Definition not_nullish (v : value) : bool :=
  match v with
  | VUndefined | VNull => false
  | _ => true
  end.

(** ToBoolean. *)
Definition to_boolean (v : value) : bool :=
  match v with
  | VUndefined | VNull => false
  | VBool b => b
  | VNumber (S754_zero _) | VNumber S754_nan => false
  | VNumber _ => true
  | VBigInt z => negb (z =? 0)%Z
  | VString s => match s with [] => false | _ => true end
  | VSymbol | VFunction | VArray _ | VObject _ => true
  end.

(** Own properties of an object, in creation order. *)
Fixpoint lookup (k : jsstr) (props : list (jsstr * value)) : option value :=
  match props with
  | [] => None
  | (k', v) :: rest => if jsstr_eqb k k' then Some v else lookup k rest
  end.

(** CreateDataProperty: a key already there keeps its place and takes the
    new value. *)
Fixpoint set_prop (props : list (jsstr * value)) (k : jsstr) (v : value)
  : list (jsstr * value) :=
  match props with
  | [] => [(k, v)]
  | (k', v') :: rest =>
      if jsstr_eqb k k' then (k', v) :: rest else (k', v') :: set_prop rest k v
  end.

(** [k in v] and [v.k] for the property names this program asks for
    ([error], [result], [message], [code]): none of them is an array index,
    [length], or a member of a built-in prototype, so only the own
    properties of a plain object can answer. *)
Definition has_property (k : jsstr) (v : value) : bool :=
  match v with
  | VObject props => match lookup k props with Some _ => true | None => false end
  | _ => false
  end.

Definition get (v : value) (k : jsstr) : value :=
  match v with
  | VObject props => match lookup k props with Some x => x | None => VUndefined end
  | _ => VUndefined
  end.

(** ** Decimal digits *)

Module Dec.

(** The value of a run of decimal digits, most significant first. *)
Definition value_from (acc : N) (ds : jsstr) : N :=
  fold_left (fun a c => 10 * a + (c - 48)) ds acc.

Definition value (ds : jsstr) : N := value_from 0 ds.

Fixpoint digits_fuel (fuel : nat) (n : N) (acc : jsstr) : jsstr :=
  match fuel with
  | O => acc
  | S f =>
      let acc' := (48 + n mod 10) :: acc in
      if n <? 10 then acc' else digits_fuel f (n / 10) acc'
  end.

(** The decimal digits of [n], without leading zeros. *)
Definition digits (n : N) : jsstr := digits_fuel (S (N.to_nat (N.log2 n))) n [].


Definition of_Z (z : Z) : jsstr :=
  match z with
  | Zneg p => Ch.minus :: digits (Npos p)
  | _ => digits (Z.to_N z)
  end.

End Dec.


(** ** Numbers *)

Module Num.

Local Open Scope Z_scope.

(** The binary64 value nearest to [(-1)^neg * m * 10^e10], ties to even:
    how a decimal literal becomes a number. *)
Definition of_decimal (neg : bool) (m : N) (e10 : Z) : number :=
  match m with
  | N0 => S754_zero neg
  | Npos p =>
      if 0 <=? e10 then binary_normalize 53 1024 (cond_Zopp neg (Zpos p * 10 ^ e10)) 0 neg
      else
        let '(mz, ez, lz) :=
          SFdiv_core_binary 53 1024 (Zpos p) 0 (10 ^ (- e10)) 0 in
        binary_round_aux 53 1024 neg mz ez lz
  end.

Definition of_Z (z : Z) : number := binary_normalize 53 1024 z 0 false.

(** [m * 2^e] as a fraction. *)
Definition fraction_of (m : positive) (e : Z) : Z * Z :=
  if 0 <=? e then (Zpos m * 2 ^ e, 1) else (Zpos m, 2 ^ (- e)).

(** [pq / 10^t] as a fraction. *)
Definition scale10 (pq : Z * Z) (t : Z) : Z * Z :=
  let (p, q) := pq in
  if 0 <=? t then (p, q * 10 ^ t) else (p * 10 ^ (- t), q).

(** The least [n'] from [n] on with [pq < 10^n']. *)
Fixpoint magnitude (fuel : nat) (pq : Z * Z) (n : Z) : Z :=
  match fuel with
  | O => n
  | S f =>
      let (a, b) := scale10 pq n in
      if a <? b then n else magnitude f pq (n + 1)
  end.

(** Number::toString, step 5: the integers [s] and [n] with the fewest
    digits [k] in [s] such that [s * 10^(n-k)] reads back as [x], the one
    nearest to [x] when several do. *)
Fixpoint shortest (fuel : nat) (x : number) (pq : Z * Z) (n0 k : Z) : Z * Z :=
  let t := n0 - k in
  let (a, b) := scale10 pq t in
  let lo := a / b in
  let r := a mod b in
  let hi := lo + 1 in
  let reads s := SFeqb (of_decimal false (Z.to_N s) t) x in
  let nearer_hi :=
    match 2 * r ?= b with Lt => false | Gt => true | Eq => Z.odd lo end in
  let found s := if s =? 10 ^ k then (1, n0 + 1) else (s, n0) in
  match reads lo, reads hi with
  | true, true => found (if nearer_hi then hi else lo)
  | true, false => found lo
  | false, true => found hi
  | false, false =>
      match fuel with
      | O => (lo, n0)
      | S f => shortest f x pq n0 (k + 1)
      end
  end.

(** Number::toString, steps 6 to 10: the digits [ds] of [s] laid out for
    the decimal exponent [n]. *)
Definition layout (ds : jsstr) (n : Z) : jsstr :=
  let k := Z.of_nat (List.length ds) in
  if (k <=? n) && (n <=? 21) then ds ++ repeat 48%N (Z.to_nat (n - k))
  else if (0 <? n) && (n <=? 21) then
    firstn (Z.to_nat n) ds ++ Ch.dot :: skipn (Z.to_nat n) ds
  else if (-6 <? n) && (n <=? 0) then
    48%N :: Ch.dot :: repeat 48%N (Z.to_nat (- n)) ++ ds
  else
    let e := n - 1 in
    let sgn := if 0 <=? e then Ch.plus else Ch.minus in
    let ex := Dec.digits (Z.to_N (Z.abs e)) in
    match ds with
    | [] => []
    | [d] => d :: 101%N :: sgn :: ex
    | d :: ds' => d :: Ch.dot :: ds' ++ 101%N :: sgn :: ex
    end.

(** [Number.prototype.toString()]. *)
Definition toString (x : number) : jsstr :=
  match x with
  | S754_nan => txt "NaN"
  | S754_zero _ => txt "0"
  | S754_infinity s => (if s then [Ch.minus] else []) ++ txt "Infinity"
  | S754_finite s m e =>
      let pq := fraction_of m e in
      let n0 := magnitude 700 pq (-330) in
      let (sd, n) := shortest 17 (S754_finite false m e) pq n0 1 in
      (if s then [Ch.minus] else []) ++ layout (Dec.digits (Z.to_N sd)) n
  end.

Definition is_finite (x : number) : bool :=
  match x with
  | S754_zero _ | S754_finite _ _ _ => true
  | _ => false
  end.

End Num.

(** ** Errors and completions *)

Inductive exn := SyntaxError | TypeError | AssertionError.

(** How an evaluation ends: with a value, or with a thrown exception. *)
Inductive completion (A : Type) : Type :=
| Return (a : A)
| Throw (e : exn).

Arguments Return {A} a.
Arguments Throw {A} e.

Definition bind {A B : Type} (c : completion A) (k : A -> completion B)
  : completion B :=
  match c with
  | Return a => k a
  | Throw e => Throw e
  end.

Notation "x <- c ;; k" := (bind c (fun x => k))
  (at level 61, c at next level, right associativity).

(** ** [JSON.parse] and [JSON.stringify] *)

Module JSON.

Inductive presult (A : Type) : Type :=
| Parsed (a : A) (rest : jsstr)
| Malformed
| OutOfFuel.

Arguments Parsed {A} a rest.
Arguments Malformed {A}.
Arguments OutOfFuel {A}.

(** JSON white space: tab, line feed, carriage return, space. *)
Definition is_ws (c : char16) : bool :=
  (c =? 9) || (c =? 10) || (c =? 13) || (c =? 32).

Fixpoint skip_ws (s : jsstr) : jsstr :=
  match s with
  | c :: t => if is_ws c then skip_ws t else s
  | [] => []
  end.

Fixpoint strip_prefix (p s : jsstr) : option jsstr :=
  match p, s with
  | [], _ => Some s
  | a :: p', b :: s' => if a =? b then strip_prefix p' s' else None
  | _ :: _, [] => None
  end.

Definition hex_value (c : char16) : option N :=
  if (48 <=? c) && (c <=? 57) then Some (c - 48)
  else if (65 <=? c) && (c <=? 70) then Some (c - 55)
  else if (97 <=? c) && (c <=? 102) then Some (c - 87)
  else None.

Definition hex4 (a b c d : char16) : option char16 :=
  match hex_value a, hex_value b, hex_value c, hex_value d with
  | Some x, Some y, Some z, Some w => Some (4096 * x + 256 * y + 16 * z + w)
  | _, _, _, _ => None
  end.

(** The character a single-letter escape stands for. *)
Definition unescape (c : char16) : option char16 :=
  if c =? 34 then Some 34
  else if c =? 92 then Some 92
  else if c =? 47 then Some 47
  else if c =? 98 then Some 8
  else if c =? 102 then Some 12
  else if c =? 110 then Some 10
  else if c =? 114 then Some 13
  else if c =? 116 then Some 9
  else None.

Definition cons_result (c : char16) (r : option (jsstr * jsstr))
  : option (jsstr * jsstr) :=
  match r with
  | Some (cs, rest) => Some (c :: cs, rest)
  | None => None
  end.

(** A string, from after its opening quote up to and including its
    closing quote. *)
Fixpoint parse_string (s : jsstr) : option (jsstr * jsstr) :=
  match s with
  | [] => None
  | c :: t =>
      if c =? Ch.quote then Some ([], t)
      else if c =? Ch.backslash then
        match t with
        | [] => None
        | e :: t1 =>
            if e =? 117 then
              match t1 with
              | h1 :: h2 :: h3 :: h4 :: t2 =>
                  match hex4 h1 h2 h3 h4 with
                  | Some u => cons_result u (parse_string t2)
                  | None => None
                  end
              | _ => None
              end
            else
              match unescape e with
              | Some u => cons_result u (parse_string t1)
              | None => None
              end
        end
      else if c <? 32 then None
      else cons_result c (parse_string t)
  end.

(** The longest run of digits at the head of [s], and what follows. *)
Fixpoint span_digits (s : jsstr) : jsstr * jsstr :=
  match s with
  | c :: t =>
      if is_digit c then let (ds, rest) := span_digits t in (c :: ds, rest)
      else ([], s)
  | [] => ([], [])
  end.

(** The integer part: a lone [0], or a digit run starting with [1-9]. *)
Definition parse_int (s : jsstr) : option (jsstr * jsstr) :=
  match s with
  | c :: t =>
      if c =? 48 then Some ([c], t)
      else if is_digit c then Some (span_digits s)
      else None
  | [] => None
  end.

(** The optional fraction: a dot and at least one digit. *)
Definition parse_frac (s : jsstr) : option (jsstr * jsstr) :=
  match s with
  | c :: t =>
      if c =? Ch.dot then
        match span_digits t with
        | ([], _) => None
        | (fs, rest) => Some (fs, rest)
        end
      else Some ([], s)
  | [] => Some ([], s)
  end.

(** The optional exponent: [e] or [E], an optional sign, at least one
    digit. *)
Definition parse_exp (s : jsstr) : option (Z * jsstr) :=
  match s with
  | c :: t =>
      if (c =? 101) || (c =? 69) then
        let '(neg, t') :=
          match t with
          | g :: u =>
              if g =? Ch.minus then (true, u)
              else if g =? Ch.plus then (false, u)
              else (false, t)
          | [] => (false, t)
          end in
        match span_digits t' with
        | ([], _) => None
        | (es, rest) =>
            let e := Z.of_N (Dec.value es) in
            Some (if neg then (- e)%Z else e, rest)
        end
      else Some (0%Z, s)
  | [] => Some (0%Z, s)
  end.

Definition parse_number (s : jsstr) : option (number * jsstr) :=
  let '(neg, s1) :=
    match s with
    | c :: t => if c =? Ch.minus then (true, t) else (false, s)
    | [] => (false, s)
    end in
  match parse_int s1 with
  | None => None
  | Some (ds, s2) =>
      match parse_frac s2 with
      | None => None
      | Some (fs, s3) =>
          match parse_exp s3 with
          | None => None
          | Some (e, s4) =>
              Some (Num.of_decimal neg (Dec.value (ds ++ fs))
                      (e - Z.of_nat (List.length fs)), s4)
          end
      end
  end.

(** A value that is neither an object nor an array. *)
Definition parse_scalar (s : jsstr) : presult value :=
  match s with
  | [] => Malformed
  | c :: t =>
      if c =? Ch.quote then
        match parse_string t with
        | Some (str, rest) => Parsed (VString str) rest
        | None => Malformed
        end
      else
        match strip_prefix (txt "true") s with
        | Some rest => Parsed (VBool true) rest
        | None =>
        match strip_prefix (txt "false") s with
        | Some rest => Parsed (VBool false) rest
        | None =>
        match strip_prefix (txt "null") s with
        | Some rest => Parsed VNull rest
        | None =>
        match parse_number s with
        | Some (x, rest) => Parsed (VNumber x) rest
        | None => Malformed
        end end end end
  end.

(** The grammar of JSON values. [parse_members] and [parse_elements] start
    after the opening bracket or after a comma, and carry what was read so
    far. Every call spends one unit of [fuel]. *)
Fixpoint parse_value (fuel : nat) (s : jsstr) {struct fuel} : presult value :=
  match fuel with
  | O => OutOfFuel
  | S f =>
      match skip_ws s with
      | [] => Malformed
      | c :: t =>
          if c =? Ch.lbrace then
            match skip_ws t with
            | [] => Malformed
            | c' :: t' =>
                if c' =? Ch.rbrace then Parsed (VObject []) t'
                else
                  match parse_members f [] t with
                  | Parsed props rest => Parsed (VObject props) rest
                  | Malformed => Malformed
                  | OutOfFuel => OutOfFuel
                  end
            end
          else if c =? Ch.lbracket then
            match skip_ws t with
            | [] => Malformed
            | c' :: t' =>
                if c' =? Ch.rbracket then Parsed (VArray []) t'
                else
                  match parse_elements f [] t with
                  | Parsed elems rest => Parsed (VArray elems) rest
                  | Malformed => Malformed
                  | OutOfFuel => OutOfFuel
                  end
            end
          else parse_scalar (c :: t)
      end
  end

with parse_members (fuel : nat) (acc : list (jsstr * value)) (s : jsstr)
       {struct fuel} : presult (list (jsstr * value)) :=
  match fuel with
  | O => OutOfFuel
  | S f =>
      match skip_ws s with
      | [] => Malformed
      | c :: t =>
          if c =? Ch.quote then
            match parse_string t with
            | None => Malformed
            | Some (k, t1) =>
                match skip_ws t1 with
                | [] => Malformed
                | c1 :: t2 =>
                    if c1 =? Ch.colon then
                      match parse_value f t2 with
                      | Parsed v t3 =>
                          match skip_ws t3 with
                          | [] => Malformed
                          | c3 :: t4 =>
                              if c3 =? Ch.comma then
                                parse_members f (set_prop acc k v) t4
                              else if c3 =? Ch.rbrace then
                                Parsed (set_prop acc k v) t4
                              else Malformed
                          end
                      | Malformed => Malformed
                      | OutOfFuel => OutOfFuel
                      end
                    else Malformed
                end
            end
          else Malformed
      end
  end

with parse_elements (fuel : nat) (acc : list value) (s : jsstr)
       {struct fuel} : presult (list value) :=
  match fuel with
  | O => OutOfFuel
  | S f =>
      match parse_value f s with
      | Parsed v t =>
          match skip_ws t with
          | [] => Malformed
          | c :: t' =>
              if c =? Ch.comma then parse_elements f (acc ++ [v]) t'
              else if c =? Ch.rbracket then Parsed (acc ++ [v]) t'
              else Malformed
          end
      | Malformed => Malformed
      | OutOfFuel => OutOfFuel
      end
  end.

(** The whole text is one value, with white space around it at most. The
    fuel is never used up (see [parse_value_fuel]). *)
Definition parse_text (text : jsstr) : completion value :=
  match parse_value (2 * List.length text + 2) text with
  | Parsed v rest =>
      match skip_ws rest with
      | [] => Return v
      | _ :: _ => Throw SyntaxError
      end
  | Malformed | OutOfFuel => Throw SyntaxError
  end.

(** *** Serialization *)

Definition hex_digit (n : N) : char16 :=
  if n <? 10 then 48 + n else 87 + n.

(** [\uXXXX] with lower-case digits. *)
Definition unicode_escape (c : char16) : jsstr :=
  [Ch.backslash; 117;
   hex_digit (c / 4096 mod 16); hex_digit (c / 256 mod 16);
   hex_digit (c / 16 mod 16); hex_digit (c mod 16)].

Definition is_high_surrogate (c : char16) : bool :=
  (55296 <=? c) && (c <=? 56319).

Definition is_low_surrogate (c : char16) : bool :=
  (56320 <=? c) && (c <=? 57343).

Definition escape_char (c : char16) : jsstr :=
  if c =? 8 then [Ch.backslash; 98]
  else if c =? 9 then [Ch.backslash; 116]
  else if c =? 10 then [Ch.backslash; 110]
  else if c =? 12 then [Ch.backslash; 102]
  else if c =? 13 then [Ch.backslash; 114]
  else if c =? 34 then [Ch.backslash; 34]
  else if c =? 92 then [Ch.backslash; 92]
  else if c <? 32 then unicode_escape c
  else [c].

Fixpoint quote_chars (s : jsstr) : jsstr :=
  match s with
  | [] => []
  | c :: t =>
      if is_high_surrogate c then
        match t with
        | d :: t' =>
            if is_low_surrogate d then c :: d :: quote_chars t'
            else unicode_escape c ++ quote_chars t
        | [] => unicode_escape c
        end
      else if is_low_surrogate c then unicode_escape c ++ quote_chars t
      else escape_char c ++ quote_chars t
  end.

(** QuoteJSONString. *)
Definition quote_string (s : jsstr) : jsstr :=
  Ch.quote :: quote_chars s ++ [Ch.quote].

Fixpoint join (parts : list jsstr) : jsstr :=
  match parts with
  | [] => []
  | [p] => p
  | p :: rest => p ++ Ch.comma :: join rest
  end.

Section Parts.
Variable ser : value -> completion (option jsstr).

(** The elements of an array: [undefined] is written [null]. *)
Fixpoint serialize_items (l : list value) : completion (list jsstr) :=
  match l with
  | [] => Return []
  | e :: l' =>
      r <- ser e ;;
      rs <- serialize_items l' ;;
      Return (match r with Some t => t | None => txt "null" end :: rs)
  end.

(** The properties of an object, in the order of the list: [undefined] is
    left out. (The order of the list is the order [JSON.stringify] writes
    as long as no name is an array index; the names this program writes
    are identifiers.) *)
Fixpoint serialize_members (l : list (jsstr * value))
  : completion (list jsstr) :=
  match l with
  | [] => Return []
  | (k, e) :: l' =>
      r <- ser e ;;
      rs <- serialize_members l' ;;
      Return (match r with
              | Some t => (quote_string k ++ Ch.colon :: t) :: rs
              | None => rs
              end)
  end.
End Parts.

(** SerializeJSONProperty without an indent or a replacer, for values that
    carry no [toJSON] method. [Return None] is the [undefined] that makes
    the caller leave the property out. A BigInt cannot be serialized. *)
Fixpoint serialize (v : value) : completion (option jsstr) :=
  match v with
  | VUndefined | VSymbol | VFunction => Return None
  | VNull => Return (Some (txt "null"))
  | VBool true => Return (Some (txt "true"))
  | VBool false => Return (Some (txt "false"))
  | VNumber x =>
      Return (Some (if Num.is_finite x then Num.toString x else txt "null"))
  | VBigInt _ => Throw TypeError
  | VString s => Return (Some (quote_string s))
  | VArray elems =>
      parts <- serialize_items serialize elems ;;
      Return (Some (Ch.lbracket :: join parts ++ [Ch.rbracket]))
  | VObject props =>
      parts <- serialize_members serialize props ;;
      Return (Some (Ch.lbrace :: join parts ++ [Ch.rbrace]))
  end.

(** [JSON.stringify(v)]. *)
Definition stringify (v : value) : completion (option jsstr) := serialize v.

End JSON.

(** ** Decoding a response body *)

Module Reviver.

(** [(\d+)n] at the head of [s]: the greedy run first, then every shorter
    one. Returns the digits captured. *)
Fixpoint match_digits_n (s : jsstr) : option jsstr :=
  match s with
  | c :: t =>
      if is_digit c then
        match match_digits_n t with
        | Some ds => Some (c :: ds)
        | None =>
            match t with
            | c' :: _ => if c' =? Ch.letter_n then Some [c] else None
            | [] => None
            end
        end
      else None
  | [] => None
  end.

(** [v.match(/(\d+)n/)]: the leftmost match, its first group. *)
Fixpoint first_match (s : jsstr) : option jsstr :=
  match match_digits_n s with
  | Some ds => Some ds
  | None =>
      match s with
      | [] => None
      | _ :: t => first_match t
      end
  end.

(** [BigInt(m[1])] for a run of digits. *)
Definition BigInt_of_digits (ds : jsstr) : Z := Z.of_N (Dec.value ds).

(** The reviver passed to [JSON.parse]:
<<
(k, v) => {
if (typeof v === 'string') {
const m = v.match(/(\d+)n/)
if (m?.[1] != null) return BigInt(m[1])
}
return v
}
>> *)
Definition reviver (v : value) : value :=
  match v with
  | VString s =>
      match first_match s with
      | Some ds => VBigInt (BigInt_of_digits ds)
      | None => v
      end
  | _ => v
  end.

(** InternalizeJSONProperty: the reviver is applied to the elements and
    the property values first, then to what holds them. It never returns
    [undefined], so no property is removed. *)
Fixpoint internalize (v : value) : value :=
  reviver
    match v with
    | VArray elems => VArray (List.map internalize elems)
    | VObject props =>
        VObject (List.map (fun kv => (fst kv, internalize (snd kv))) props)
    | _ => v
    end.

End Reviver.

(** [JSON.parse(text, reviver)]. *)
Definition JSON_parse (text : jsstr) : completion value :=
  v <- JSON.parse_text text ;;
  Return (Reviver.internalize v).

(** [JSON.parse(stringifyInts(rawData), reviver)]. *)
Definition decode (rawData : jsstr) : completion value :=
  JSON_parse (stringifyInts rawData).

(** ** [MoneroRpcError] *)

(** What the error object ends up carrying: the message given to the [Error]
    constructor and the two fields of the class. *)
Record RpcError := {
  message : jsstr;
  code : option number;
  errorMessage : option jsstr
}.

Module ErrorCtor.

(** The constructor's local state while it runs. *)
Record state := {
  calledSuper : bool;
  super_arg : jsstr;
  this_code : option number;
  this_errorMessage : option jsstr
}.

Definition start : state :=
  {| calledSuper := false; super_arg := []; this_code := None;
     this_errorMessage := None |}.

(** [super(m); calledSuper = true] *)
Definition call_super (m : jsstr) (st : state) : state :=
  {| calledSuper := true; super_arg := m; this_code := this_code st;
     this_errorMessage := this_errorMessage st |}.

Definition set_errorMessage (m : jsstr) (st : state) : state :=
  {| calledSuper := calledSuper st; super_arg := super_arg st;
     this_code := this_code st; this_errorMessage := Some m |}.

Definition set_code (c : number) (st : state) : state :=
  {| calledSuper := calledSuper st; super_arg := super_arg st;
     this_code := Some c; this_errorMessage := this_errorMessage st |}.

Definition as_string (v : value) : jsstr :=
  match v with VString s => s | _ => [] end.

Definition as_number (v : value) : number :=
  match v with VNumber x => x | _ => S754_nan end.

(** [if (typeof response === 'string') { ... }] *)
Definition string_case (response : value) (st : state) : state :=
  if type_tag_eqb (typeof response) TString
  then call_super (as_string response) st
  else st.

(** [if ('message' in response && typeof response.message === 'string')] *)
Definition message_case (response : value) (st : state) : state :=
  if has_property (txt "message") response
     && type_tag_eqb (typeof (get response (txt "message"))) TString
  then
    set_errorMessage (as_string (get response (txt "message")))
      (call_super (as_string (get response (txt "message"))) st)
  else st.

(** [if ('code' in response && typeof response.code === 'number')] *)
Definition code_case (response : value) (st : state) : state :=
  if has_property (txt "code") response
     && type_tag_eqb (typeof (get response (txt "code"))) TNumber
  then
    let c := as_number (get response (txt "code")) in
    set_code c
      (if negb (calledSuper st)
       then call_super (txt "Code " ++ Num.toString c) st
       else st)
  else st.

(** [if (typeof response === 'object' && response != null) { ... }] *)
Definition object_case (response : value) (st : state) : state :=
  if type_tag_eqb (typeof response) TObject && not_nullish response
  then code_case response (message_case response st)
  else st.

(** [if (!calledSuper) super('Unknown error')] *)
Definition default_case (st : state) : state :=
  if negb (calledSuper st) then call_super (txt "Unknown error") st else st.

Definition run (response : value) : state :=
  default_case (object_case response (string_case response start)).

End ErrorCtor.

(** [new MoneroRpcError(response)]. *)
Definition MoneroRpcError (response : value) : RpcError :=
  let st := ErrorCtor.run response in
  {| message := ErrorCtor.super_arg st;
     code := ErrorCtor.this_code st;
     errorMessage := ErrorCtor.this_errorMessage st |}.

(** ** [NoderoWallet.request] *)

(** What a rejected call carries: an error built by this module, or the
    error object the transport emitted. *)
Inductive failure :=
| RpcFailure (e : RpcError)
| TransportFailure (e : value).

(** How a call ends: the promise resolves, the promise rejects, or an
    exception leaves the function or the event handler. *)
Inductive outcome :=
| Resolved (v : value)
| Rejected (f : failure)
| Thrown (e : exn).

(** What the HTTP layer reports for one exchange. The status code is the
    integer Node's HTTP parser read, if any. *)
Inductive exchange :=
| RequestError (e : value)
| ResponseError (e : value)
| ResponseEnd (statusCode : option Z) (chunks : list jsstr).

Module NoderoWallet.

(** The object given to [JSON.stringify]. *)
Definition envelope (method : jsstr) (params : value) : value :=
  VObject [(txt "jsonrpc", VString (txt "2.0"));
           (txt "id", VString (txt "0"));
           (txt "method", VString method);
           (txt "params", params)].

(** [JSON.stringify] of an object is a string, unless it throws. *)
Definition payload (method : jsstr) (params : value) : completion jsstr :=
  r <- JSON.stringify (envelope method params) ;;
  Return (match r with Some t => t | None => txt "undefined" end).

(** [`RPC call failed with status code ${statusCode}`] *)
Definition status_message (statusCode : option Z) : jsstr :=
  txt "RPC call failed with status code "
  ++ match statusCode with
     | Some c => Dec.of_Z c
     | None => txt "undefined"
     end.

(** [statusCode == null || statusCode < 200 || statusCode > 299] *)
Definition bad_status (statusCode : option Z) : bool :=
  match statusCode with
  | None => true
  | Some c => (c <? 200)%Z || (c >? 299)%Z
  end.

(** The ['end'] handler of the response, with the decoder it calls as an
    argument. *)
Definition on_end_with (decoder : jsstr -> completion value)
    (statusCode : option Z) (rawData : jsstr) : outcome :=
  if bad_status statusCode then
    Rejected (RpcFailure (MoneroRpcError (VString (status_message statusCode))))
  else
    match decoder rawData with
    | Throw e => Thrown e
    | Return data =>
        if not_nullish data then
          if not_nullish (get data (txt "error")) then
            Rejected (RpcFailure (MoneroRpcError (get data (txt "error"))))
          else if to_boolean (get data (txt "result")) then
            Resolved (get data (txt "result"))
          else Thrown AssertionError
        else Thrown TypeError
    end.

Definition on_end : option Z -> jsstr -> outcome := on_end_with decode.

(** [rawData += chunk] for every ['data'] event. *)
Definition rawData_of (chunks : list jsstr) : jsstr := List.concat chunks.

Definition request (method : jsstr) (params : value) (x : exchange) : outcome :=
  match payload method params with
  | Throw e => Thrown e
  | Return _ =>
      match x with
      | RequestError e => Rejected (TransportFailure e)
      | ResponseError e => Rejected (TransportFailure e)
      | ResponseEnd statusCode chunks => on_end statusCode (rawData_of chunks)
      end
  end.

(** [createAddress(account_index, label, count)]: one of the facades, all
    of which hand a method name and an object of their arguments to
    [request]. The facade is given as the call to [request] it makes: what
    [request] throws before it returns ([Thrown], from [JSON.stringify])
    reaches the caller of the [async] facade as a rejected promise, while
    what an event handler throws leaves the promise unsettled. *)
Definition createAddress (account_index label count : value)
  : exchange -> outcome :=
  request (txt "create_address")
    (VObject [(txt "account_index", account_index);
              (txt "label", label);
              (txt "count", count)]).

End NoderoWallet.

(** ** The line-per-field layout

    The shape of body the prepass is written for: every field of an object
    on a line of its own, as [  "key": value], followed by a comma if
    another field comes and by nothing else; an array on the line of its
    field. [doc] describes such bodies, [Layout.render] writes them. *)

Module Layout.

#[warnings="-register-all"]
Inductive doc : Type :=
| DInt (ds : jsstr)
| DStr (s : jsstr)
| DBool (b : bool)
| DNull
| DArr (elems : list doc)
| DObj (fields : list (jsstr * doc)).

Definition spaces (n : nat) : jsstr := repeat Ch.space n.

Section Render.
(** Spaces added per nesting level. *)
Variable step : nat.
(** How an integer literal is written. *)
Variable int_text : jsstr -> jsstr.

Definition field_line (ind : nat) (k : jsstr) (v : jsstr) : jsstr :=
  spaces ind ++ Ch.quote :: k ++ Ch.quote :: Ch.colon :: Ch.space :: v.

Fixpoint render_fields (rv : doc -> jsstr) (ind : nat)
    (fs : list (jsstr * doc)) : jsstr :=
  match fs with
  | [] => []
  | (k, v) :: rest =>
      match rest with
      | [] => field_line ind k (rv v)
      | _ :: _ =>
          field_line ind k (rv v)
          ++ Ch.comma :: 10 :: render_fields rv ind rest
      end
  end.

Fixpoint render_elems (rv : doc -> jsstr) (es : list doc) : jsstr :=
  match es with
  | [] => []
  | e :: rest =>
      match rest with
      | [] => rv e
      | _ :: _ => rv e ++ Ch.comma :: render_elems rv rest
      end
  end.

Fixpoint render (ind : nat) (d : doc) : jsstr :=
  match d with
  | DInt ds => int_text ds
  | DStr s => Ch.quote :: s ++ [Ch.quote]
  | DBool true => txt "true"
  | DBool false => txt "false"
  | DNull => txt "null"
  | DArr elems => Ch.lbracket :: render_elems (render ind) elems ++ [Ch.rbracket]
  | DObj fields =>
      Ch.lbrace :: 10
      :: render_fields (render (ind + step)) (ind + step) fields
      ++ 10 :: spaces ind ++ [Ch.rbrace]
  end.
End Render.

(** An integer literal written as it is. *)
Definition written (ds : jsstr) : jsstr := ds.

(** The body as the wallet sends it. *)
Definition body (step : nat) (d : doc) : jsstr :=
  render step written 0 d.


(** A character a JSON string holds as it is. *)
Definition plain_char (c : char16) : bool :=
  (32 <=? c) && negb (c =? Ch.quote) && negb (c =? Ch.backslash).

Definition key_char (c : char16) : bool :=
  plain_char c && negb (is_line_terminator c).

Definition key_ok (k : jsstr) : bool :=
  match k with
  | [] => false
  | _ :: _ => forallb key_char k
  end.






End Layout.

(** [v[i]] for an array. *)
Definition element (v : value) (i : nat) : value :=
  match v with
  | VArray elems => nth i elems VUndefined
  | _ => VUndefined
  end.

(** ** Response bodies used below *)

Module Samples.

(** The balance response on one line, without a space after the colons. *)
Definition balance_compact : jsstr :=
  txt "{'jsonrpc':'2.0','id':'0','result':{'balance':1125125151521,'unlocked_balance':1125125151521,'multisig_import_needed':false,'per_subaddress':[{'balance':1125125151521}]}}".

(** The same response with a field per line. *)
Definition balance_lines : jsstr :=
  lines ["{";
         "  'jsonrpc': '2.0',";
         "  'id': '0',";
         "  'result': {";
         "    'balance': 1125125151521,";
         "    'unlocked_balance': 1125125151521,";
         "    'multisig_import_needed': false,";
         "    'per_subaddress': [{";
         "        'balance': 1125125151521";
         "      }]";
         "  }";
         "}"].

(** An integer beyond 2^53 inside an array. *)
Definition amounts_in_array : jsstr :=
  lines ["{";
         "  'jsonrpc': '2.0',";
         "  'id': '0',";
         "  'result': {";
         "    'amount_list': [9007199254740993]";
         "  }";
         "}"].

(** An integer beyond 2^53 as a field value, without a space after the
    colon. *)
Definition large_compact : jsstr :=
  txt "{'jsonrpc':'2.0','id':'0','result':{'balance':9007199254740993}}".

(** A string field whose text is digits followed by [n]. *)
Definition marker_like_string : jsstr :=
  txt "{'jsonrpc':'2.0','id':'0','result':{'payment_id':'123n'}}".

(** The address shown in the README. *)
Definition readme_address : jsstr :=
  txt "52R4RNjVjPn6Aj3SVA1yzZQStC8a4StYTUiuAtLjBPk92A76vrCD2pcPmV51Td8X56Gb1smNTaiEadc4gurjQ5nJBUuVCFB".

Definition address_body : jsstr :=
  lines ["{";
         "  'id': '0',";
         "  'jsonrpc': '2.0',";
         "  'result': {"]
  ++ 10 :: txt "    'address': '" ++ readme_address ++ txt "'"
  ++ 10 :: lines ["  }"; "}"].

Definition denied : jsstr :=
  txt "{'jsonrpc':'2.0','id':'0','error':{'code':-1,'message':'denied'}}".

(** Integers in an array with an element per line, beside an integer
    field. *)
Definition amounts_per_line : jsstr :=
  lines ["{";
         "  'id': '0',";
         "  'jsonrpc': '2.0',";
         "  'result': {";
         "    'amount_list': [";
         "      9007199254740993,";
         "      1";
         "    ],";
         "    'fee': 9007199254740993";
         "  }";
         "}"].

(** An error whose code is written without a sign, a field per line. *)
Definition error_unsigned_code : jsstr :=
  lines ["{";
         "  'error': {";
         "    'code': 13,";
         "    'message': 'No wallet file'";
         "  },";
         "  'id': '0',";
         "  'jsonrpc': '2.0'";
         "}"].

(** An error whose message quotes the address of the README, on one line
    as [denied] is. *)
Definition error_address_message : jsstr :=
  txt "{'jsonrpc':'2.0','id':'0','error':{'code':-2,'message':'Invalid address "
  ++ readme_address ++ txt "'}}".

(** Both at once. *)
Definition error_unsigned_code_address : jsstr :=
  lines ["{";
         "  'error': {";
         "    'code': 2,"]
  ++ 10 :: txt "    'message': 'Invalid address " ++ readme_address ++ txt "'"
  ++ 10 :: lines ["  },";
                  "  'id': '0',";
                  "  'jsonrpc': '2.0'";
                  "}"].

End Samples.

(** ** Auxiliary notions for the layout *)

Module LayoutAux.

Import Layout.

(** No position of [u], read after [before], starts a match of the
    prepass: the character is not a digit or the lookbehind fails. *)
Fixpoint no_match (before u : jsstr) : bool :=
  match u with
  | [] => true
  | c :: u' =>
      (negb (is_digit c) || negb (Prepass.lookbehind before))
      && no_match (c :: before) u'
  end.

(** The prepass, started after [before], turns [u] followed by [r] into [u']
    followed by what it makes of [r]. *)
Definition rewrites (before u u' r : jsstr) : Prop :=
  Prepass.replace_from before 0 (u ++ r)
  = u' ++ Prepass.replace_from (rev u ++ before) 0 r.








End LayoutAux.

(** ** Induction over nested values and documents *)

Section ValueInduction.
Variable P : value -> Prop.
Hypothesis Hundef : P VUndefined.
Hypothesis Hnull : P VNull.
Hypothesis Hbool : forall b, P (VBool b).
Hypothesis Hnum : forall x, P (VNumber x).
Hypothesis Hbig : forall z, P (VBigInt z).
Hypothesis Hstr : forall s, P (VString s).
Hypothesis Hsym : P VSymbol.
Hypothesis Hfun : P VFunction.
Hypothesis Harr : forall elems, Forall P elems -> P (VArray elems).
Hypothesis Hobj :
  forall props, Forall (fun kv => P (snd kv)) props -> P (VObject props).

Fixpoint value_nested_ind (v : value) : P v :=
  match v with
  | VUndefined => Hundef
  | VNull => Hnull
  | VBool b => Hbool b
  | VNumber x => Hnum x
  | VBigInt z => Hbig z
  | VString s => Hstr s
  | VSymbol => Hsym
  | VFunction => Hfun
  | VArray elems =>
      Harr elems
        ((fix all (l : list value) : Forall P l :=
            match l with
            | [] => Forall_nil P
            | x :: l' => Forall_cons x (value_nested_ind x) (all l')
            end) elems)
  | VObject props =>
      Hobj props
        ((fix all (l : list (jsstr * value))
            : Forall (fun kv => P (snd kv)) l :=
            match l with
            | [] => Forall_nil _
            | kv :: l' => Forall_cons kv (value_nested_ind (snd kv)) (all l')
            end) props)
  end.
End ValueInduction.

Section DocInduction.
Variable P : Layout.doc -> Prop.
Hypothesis Hint : forall ds, P (Layout.DInt ds).
Hypothesis Hstr : forall s, P (Layout.DStr s).
Hypothesis Hbool : forall b, P (Layout.DBool b).
Hypothesis Hnull : P Layout.DNull.
Hypothesis Harr : forall elems, Forall P elems -> P (Layout.DArr elems).
Hypothesis Hobj :
  forall fields, Forall (fun kv => P (snd kv)) fields -> P (Layout.DObj fields).

End DocInduction.

(** ** Auxiliary notions for the further properties *)

Module PrepassAux.

(** No digit before the end of the line. *)
Fixpoint quiet (s : jsstr) : bool :=
  match s with
  | [] => true
  | c :: t => if is_line_terminator c then true else negb (is_digit c) && quiet t
  end.

End PrepassAux.

(** The values [JSON.parse] builds before the reviver runs. *)
Fixpoint is_json (v : value) : bool :=
  match v with
  | VNull | VBool _ | VNumber _ | VString _ => true
  | VArray elems => forallb is_json elems
  | VObject props => forallb (fun kv => is_json (snd kv)) props
  | VUndefined | VBigInt _ | VSymbol | VFunction => false
  end.

(** What the reviver leaves behind: no string it would still promote, no
    negative BigInt, nothing outside JSON. *)
Fixpoint revived (v : value) : bool :=
  match v with
  | VNull | VBool _ | VNumber _ => true
  | VString s => match Reviver.first_match s with Some _ => false | None => true end
  | VBigInt z => (0 <=? z)%Z
  | VArray elems => forallb revived elems
  | VObject props => forallb (fun kv => revived (snd kv)) props
  | VUndefined | VSymbol | VFunction => false
  end.

(** ** More of the facades

    Each one names its remote method and hands [request] an object of its
    arguments, in the order of the source, and is given here as that call
    (see [NoderoWallet.createAddress] for what [async] adds). *)

Module Facades.

(** [getBalance(account_index, address_indices, all_accounts, strict)] *)
Definition getBalance (account_index address_indices all_accounts strict : value)
  : exchange -> outcome :=
  NoderoWallet.request (txt "get_balance")
    (VObject [(txt "account_index", account_index);
              (txt "address_indices", address_indices);
              (txt "all_accounts", all_accounts);
              (txt "strict", strict)]).

(** [getHeight()] *)
Definition getHeight : exchange -> outcome :=
  NoderoWallet.request (txt "get_height") (VObject []).

(** [store()] *)
Definition store : exchange -> outcome :=
  NoderoWallet.request (txt "store") (VObject []).

(** [getTxNotes(txids)] *)
Definition getTxNotes (txids : value) : exchange -> outcome :=
  NoderoWallet.request (txt "get_tx_notes") (VObject [(txt "txids", txids)]).


End Facades.

(** A BigInt somewhere inside a value. *)
Fixpoint contains_bigint (v : value) : bool :=
  match v with
  | VBigInt _ => true
  | VArray elems => existsb contains_bigint elems
  | VObject props => existsb (fun kv => contains_bigint (snd kv)) props
  | VUndefined | VNull | VBool _ | VNumber _ | VString _ | VSymbol
  | VFunction => false
  end.

(** The values [JSON.stringify] writes nothing for. *)
Definition omitted (v : value) : bool :=
  match v with
  | VUndefined | VSymbol | VFunction => true
  | _ => false
  end.

(** No two properties under one name. *)
Fixpoint distinct_keys (props : list (jsstr * value)) : bool :=
  match props with
  | [] => true
  | (k, _) :: rest =>
      match lookup k rest with
      | None => distinct_keys rest
      | Some _ => false
      end
  end.

(** Values made of strings, booleans and [null], in arrays and in objects
    that name every property once. *)
Fixpoint textual (v : value) : bool :=
  match v with
  | VNull | VBool _ | VString _ => true
  | VArray elems => forallb textual elems
  | VObject props =>
      forallb (fun kv => textual (snd kv)) props && distinct_keys props
  | VUndefined | VNumber _ | VBigInt _ | VSymbol | VFunction => false
  end.

(** ** Reading back what was written *)

(** The calls [JSON.parse] makes for a value, at most. *)
Fixpoint weight (v : value) : nat :=
  match v with
  | VArray elems => 2 + list_sum (List.map weight elems)
  | VObject props => 2 + list_sum (List.map (fun kv => weight (snd kv)) props)
  | _ => 1
  end.

(** A text whose first character opens a value. *)
Definition starts_value (t : jsstr) : bool :=
  match t with
  | c :: _ => negb (JSON.is_ws c) && negb (c =? Ch.rbracket)
  | [] => false
  end.

(** [v] is written as a text that is read as [v] again, whatever follows. *)
Definition reads_back (v : value) : Prop :=
  exists t,
    JSON.serialize v = Return (Some t)
    /\ starts_value t = true
    /\ (weight v <= List.length t)%nat
    /\ forall fuel r,
         (weight v <= fuel)%nat ->
         JSON.parse_value fuel (t ++ r) = JSON.Parsed v r.

(** ** What goes on the wire *)

Module Wire.

(** [Buffer.byteLength(s)]: the length of [s] in UTF-8. A surrogate pair is
    one character of four bytes; a surrogate on its own is written as
    U+FFFD, three bytes. *)
Fixpoint byteLength (s : jsstr) : nat :=
  match s with
  | [] => 0
  | c :: t =>
      if c <? 128 then S (byteLength t)
      else if c <? 2048 then 2 + byteLength t
      else if JSON.is_high_surrogate c then
        match t with
        | d :: t' =>
            if JSON.is_low_surrogate d then 4 + byteLength t'
            else 3 + byteLength t
        | [] => 3
        end
      else 3 + byteLength t
  end.

(** The ['binary'] encoding: one byte for every code unit, its low eight
    bits. *)
Definition binary (s : jsstr) : list N := List.map (fun c => N.land c 255) s.

(** The [Content-Length] header and the bytes of [req.write]. *)
Record sent := {
  content_length : nat;
  body : list N
}.

Definition send (method : jsstr) (params : value) : completion sent :=
  p <- NoderoWallet.payload method params ;;
  Return {| content_length := byteLength p; body := binary p |}.

Definition ascii (s : jsstr) : bool := forallb (fun c => c <? 128) s.

End Wire.

(** * Properties *)

(** ** Strings and properties *)

Lemma jsstr_eqb_eq a b : jsstr_eqb a b = true <-> a = b.
Proof.
  unfold jsstr_eqb. destruct (list_eq_dec N.eq_dec a b); split; congruence.
Qed.

Lemma jsstr_eqb_refl a : jsstr_eqb a a = true.
Proof. apply jsstr_eqb_eq. reflexivity. Qed.

Lemma get_object props k :
  get (VObject props) k
  = match lookup k props with Some x => x | None => VUndefined end.
Proof. reflexivity. Qed.

(** ** The prepass on small bodies *)

Example stringifyInts_field :
  stringifyInts (lines ["{"; "  'a': 12,"; "  'b': 7"; "}"])
  = lines ["{"; "  'a': '12n',"; "  'b': '7n'"; "}"].
Proof. vm_compute. reflexivity. Qed.

Example stringifyInts_compact :
  stringifyInts (txt "{'a':12,'b': 7,'c': 8}}") = txt "{'a':12,'b': 7,'c': 8}}".
Proof. vm_compute. reflexivity. Qed.

Example stringifyInts_array :
  stringifyInts (lines ["{"; "  'a': [1,2]"; "}"]) = lines ["{"; "  'a': [1,2]"; "}"].
Proof. vm_compute. reflexivity. Qed.

Example stringifyInts_negative :
  stringifyInts (lines ["{"; "  'code': -1"; "}"]) = lines ["{"; "  'code': -1"; "}"].
Proof. vm_compute. reflexivity. Qed.

(** ** The built-ins on known values *)

Example toString_samples :
  List.map Num.toString
    [Num.of_decimal false 1 (-1); Num.of_decimal false 1 21;
     Num.of_decimal false 1 (-7); Num.of_decimal false 123456 (-3);
     Num.of_decimal false 36028797018963968 0; Num.of_decimal true 5 (-324);
     Num.of_decimal false 17976931348623157 292; Num.of_Z (-13)]
  = [txt "0.1"; txt "1e+21"; txt "1e-7"; txt "123.456";
     txt "36028797018963970"; txt "-5e-324";
     txt "1.7976931348623157e+308"; txt "-13"].
Proof. vm_compute. reflexivity. Qed.

Example parse_samples :
  JSON.parse_text (txt " [1, 2.5e1, -0, 'a\u0041\n', true, null, [], {'a':1,'b':2,'a':3}] ")
  = Return (VArray
      [VNumber (Num.of_Z 1); VNumber (Num.of_Z 25); VNumber (S754_zero true);
       VString [97; 65; 10]; VBool true; VNull; VArray [];
       VObject [(txt "a", VNumber (Num.of_Z 3)); (txt "b", VNumber (Num.of_Z 2))]])
  /\ List.map JSON.parse_text
       [txt "01"; txt "[1,]"; txt "{'a':1,}"; txt "1."; txt "1e"; txt "";
        txt "tru"; txt "-"; txt "'abc"; txt "{'a' 1}"; txt "1 2"]
     = repeat (Throw SyntaxError) 11.
Proof. vm_compute. split; reflexivity. Qed.

Example stringify_samples :
  JSON.stringify
    (VObject [(txt "a", VNumber (Num.of_Z 5)); (txt "u", VUndefined);
              (txt "s", VString (txt "x'y" ++ [10; 1]));
              (txt "arr", VArray [VUndefined; VNull; VBool true; VObject []])])
  = Return (Some (txt "{'a':5,'s':'x\'y\n\u0001','arr':[null,null,true,{}]}"))
  /\ JSON.stringify (VArray [VBigInt 5]) = Throw TypeError.
Proof. vm_compute. split; reflexivity. Qed.

(** ** The dispatcher *)

Lemma bad_status_in_range c :
  (200 <= c <= 299)%Z -> NoderoWallet.bad_status (Some c) = false.
Proof.
  intros H. unfold NoderoWallet.bad_status. rewrite Z.gtb_ltb.
  destruct (Z.ltb_spec c 200); destruct (Z.ltb_spec 299 c); simpl; try reflexivity; lia.
Qed.

Lemma bad_status_out_of_range statusCode :
  (forall c, statusCode = Some c -> (c < 200 \/ 299 < c)%Z) ->
  NoderoWallet.bad_status statusCode = true.
Proof.
  intros H. destruct statusCode as [c|]; [|reflexivity].
  unfold NoderoWallet.bad_status. rewrite Z.gtb_ltb.
  destruct (H c eq_refl);
    destruct (Z.ltb_spec c 200); destruct (Z.ltb_spec 299 c); simpl; try reflexivity; lia.
Qed.

Lemma request_response method params p statusCode chunks :
  NoderoWallet.payload method params = Return p ->
  NoderoWallet.request method params (ResponseEnd statusCode chunks)
  = NoderoWallet.on_end statusCode (NoderoWallet.rawData_of chunks).
Proof. intros H. unfold NoderoWallet.request. rewrite H. reflexivity. Qed.

Lemma MoneroRpcError_string s :
  MoneroRpcError (VString s)
  = {| message := s; code := None; errorMessage := None |}.
Proof. reflexivity. Qed.

(** C4: a response whose status code is missing or outside 200..299 makes the
    call reject with an error whose message ends with the status code, and
    the outcome is the same whatever the decoder would do with the body: the
    body is not decoded. *)
Theorem C4_bad_status_rejects_without_decoding :
  forall (statusCode : option Z) (chunks : list jsstr)
         (method : jsstr) (params : value) (p : jsstr),
    (forall c, statusCode = Some c -> (c < 200 \/ 299 < c)%Z) ->
    NoderoWallet.payload method params = Return p ->
    let failed :=
      Rejected (RpcFailure
        {| message :=
             txt "RPC call failed with status code "
             ++ match statusCode with
                | Some c => Dec.of_Z c
                | None => txt "undefined"
                end;
           code := None;
           errorMessage := None |}) in
    NoderoWallet.request method params (ResponseEnd statusCode chunks) = failed
    /\ forall decoder,
         NoderoWallet.on_end_with decoder statusCode (NoderoWallet.rawData_of chunks) = failed.
Proof.
  intros statusCode chunks method params p Hst Hp failed.
  assert (Hd : forall decoder,
             NoderoWallet.on_end_with decoder statusCode (NoderoWallet.rawData_of chunks) = failed).
  { intros decoder. unfold NoderoWallet.on_end_with.
    rewrite (bad_status_out_of_range _ Hst).
    rewrite MoneroRpcError_string. reflexivity. }
  split; [|exact Hd].
  rewrite (request_response _ _ _ _ _ Hp). apply Hd.
Qed.

(** Status 500: the message ends with 500. *)
Lemma C4_status_500_witness :
  NoderoWallet.request (txt "get_balance") VUndefined
    (ResponseEnd (Some 500%Z) [txt "{'jsonrpc':'2.0','id':'0','result':{}}"])
  = Rejected (RpcFailure
      {| message := txt "RPC call failed with status code 500";
         code := None; errorMessage := None |}).
Proof.
  refine (proj1 (C4_bad_status_rejects_without_decoding (Some 500%Z)
            [txt "{'jsonrpc':'2.0','id':'0','result':{}}"]
            (txt "get_balance") VUndefined
            (txt "{'jsonrpc':'2.0','id':'0','method':'get_balance'}") _ _)).
  - intros c Hc. injection Hc as <-. right. lia.
  - vm_compute. reflexivity.
Defined.

Lemma on_end_object c rawData props :
  (200 <= c <= 299)%Z ->
  decode rawData = Return (VObject props) ->
  NoderoWallet.on_end (Some c) rawData
  = if not_nullish (get (VObject props) (txt "error")) then
      Rejected (RpcFailure (MoneroRpcError (get (VObject props) (txt "error"))))
    else if to_boolean (get (VObject props) (txt "result")) then
      Resolved (get (VObject props) (txt "result"))
    else Thrown AssertionError.
Proof.
  intros Hc Hd. unfold NoderoWallet.on_end, NoderoWallet.on_end_with.
  rewrite (bad_status_in_range _ Hc), Hd. reflexivity.
Qed.

Lemma lookup_get props k v :
  lookup k props = Some v -> get (VObject props) k = v.
Proof. intros H. rewrite get_object, H. reflexivity. Qed.

Lemma lookup_none_get props k :
  lookup k props = None -> get (VObject props) k = VUndefined.
Proof. intros H. rewrite get_object, H. reflexivity. Qed.

(** C5: the response of the claim is rejected with code -1 and the message
    [denied]. But the error is not always built from the code and the
    message of the response: a code written without a sign on a line of its
    own is marked by the prepass, comes out of decoding as a BigInt, and is
    not recorded; a message with a digit before an [n] comes out of
    decoding as a BigInt, and the error says [Code <code>] in its place, or
    [Unknown error] when the code is lost too. *)
Theorem C5_error_code_or_message_lost :
  NoderoWallet.request (txt "get_balance") VUndefined
    (ResponseEnd (Some 200%Z) [Samples.denied])
  = Rejected (RpcFailure
      {| message := txt "denied";
         code := Some (Num.of_Z (-1));
         errorMessage := Some (txt "denied") |})
  /\ decode Samples.error_unsigned_code
     = Return (VObject
         [(txt "error",
           VObject [(txt "code", VBigInt 13);
                    (txt "message", VString (txt "No wallet file"))]);
          (txt "id", VString (txt "0"));
          (txt "jsonrpc", VString (txt "2.0"))])
  /\ NoderoWallet.request (txt "open_wallet") VUndefined
       (ResponseEnd (Some 200%Z) [Samples.error_unsigned_code])
     = Rejected (RpcFailure
         {| message := txt "No wallet file";
            code := None;
            errorMessage := Some (txt "No wallet file") |})
  /\ decode Samples.error_address_message
     = Return (VObject
         [(txt "jsonrpc", VString (txt "2.0"));
          (txt "id", VString (txt "0"));
          (txt "error",
           VObject [(txt "code", VNumber (Num.of_Z (-2)));
                    (txt "message", VBigInt 5)])])
  /\ NoderoWallet.request (txt "transfer") VUndefined
       (ResponseEnd (Some 200%Z) [Samples.error_address_message])
     = Rejected (RpcFailure
         {| message := txt "Code -2";
            code := Some (Num.of_Z (-2));
            errorMessage := None |})
  /\ NoderoWallet.request (txt "transfer") VUndefined
       (ResponseEnd (Some 200%Z) [Samples.error_unsigned_code_address])
     = Rejected (RpcFailure
         {| message := txt "Unknown error";
            code := None;
            errorMessage := None |}).
Proof. vm_compute. repeat split. Qed.

(** C6: a 2xx response whose decoded envelope has neither a [result] nor an
    [error] field makes [ok(data.result)] throw: the call neither resolves
    nor rejects. *)
Theorem C6_missing_result_asserts :
  forall (c : Z) (chunks : list jsstr) (method : jsstr) (params : value)
         (p : jsstr) (props : list (jsstr * value)),
    (200 <= c <= 299)%Z ->
    NoderoWallet.payload method params = Return p ->
    decode (NoderoWallet.rawData_of chunks) = Return (VObject props) ->
    lookup (txt "error") props = None ->
    lookup (txt "result") props = None ->
    NoderoWallet.request method params (ResponseEnd (Some c) chunks)
    = Thrown AssertionError.
Proof.
  intros c chunks method params p props Hc Hp Hd He Hr.
  rewrite (request_response _ _ _ _ _ Hp), (on_end_object _ _ _ Hc Hd).
  rewrite (lookup_none_get _ _ He), (lookup_none_get _ _ Hr). reflexivity.
Qed.

(** An envelope with [jsonrpc] and [id] only, received in two chunks. *)
Lemma C6_empty_envelope_witness :
  NoderoWallet.request (txt "get_balance") VUndefined
    (ResponseEnd (Some 200%Z) [txt "{'jsonrpc':'2.0',"; txt "'id':'0'}"])
  = Thrown AssertionError.
Proof.
  apply (C6_missing_result_asserts 200 _ _ _
           (txt "{'jsonrpc':'2.0','id':'0','method':'get_balance'}")
           [(txt "jsonrpc", VString (txt "2.0")); (txt "id", VString (txt "0"))]).
  - lia.
  - vm_compute. reflexivity.
  - vm_compute. reflexivity.
  - reflexivity.
  - reflexivity.
Defined.

(** C10: a 2xx response without an [error] field whose [result] is present
    but falsy ([false], [0], the empty string, [null]) does not resolve:
    [ok(data.result)] throws, and the outcome is the one of a response with
    no [result] at all. *)
Theorem C10_falsy_result_asserts :
  forall (c : Z) (chunks : list jsstr) (method : jsstr) (params : value)
         (p : jsstr) (props : list (jsstr * value)) (r : value),
    (200 <= c <= 299)%Z ->
    NoderoWallet.payload method params = Return p ->
    decode (NoderoWallet.rawData_of chunks) = Return (VObject props) ->
    lookup (txt "error") props = None ->
    lookup (txt "result") props = Some r ->
    to_boolean r = false ->
    NoderoWallet.request method params (ResponseEnd (Some c) chunks)
    = Thrown AssertionError
    /\ forall chunks' props',
         decode (NoderoWallet.rawData_of chunks') = Return (VObject props') ->
         lookup (txt "error") props' = None ->
         lookup (txt "result") props' = None ->
         NoderoWallet.request method params (ResponseEnd (Some c) chunks)
         = NoderoWallet.request method params (ResponseEnd (Some c) chunks').
Proof.
  intros c chunks method params p props r Hc Hp Hd He Hr Hf.
  assert (H : NoderoWallet.request method params (ResponseEnd (Some c) chunks)
              = Thrown AssertionError).
  { rewrite (request_response _ _ _ _ _ Hp), (on_end_object _ _ _ Hc Hd).
    rewrite (lookup_none_get _ _ He), (lookup_get _ _ _ Hr), Hf. reflexivity. }
  split; [exact H|].
  intros chunks' props' Hd' He' Hr'. rewrite H.
  rewrite (request_response _ _ _ _ _ Hp), (on_end_object _ _ _ Hc Hd').
  rewrite (lookup_none_get _ _ He'), (lookup_none_get _ _ Hr'). reflexivity.
Qed.

Example falsy_results :
  to_boolean (VBool false) = false
  /\ to_boolean (VNumber (Num.of_Z 0)) = false
  /\ to_boolean (VBigInt 0) = false
  /\ to_boolean (VString []) = false
  /\ to_boolean VNull = false.
Proof. repeat split. Qed.

(** A response whose result is [false]. *)
Lemma C10_false_result_witness :
  NoderoWallet.request (txt "is_multisig") VUndefined
    (ResponseEnd (Some 200%Z) [txt "{'jsonrpc':'2.0','id':'0','result':false}"])
  = Thrown AssertionError.
Proof.
  refine (proj1 (C10_falsy_result_asserts 200 _ _ _
           (txt "{'jsonrpc':'2.0','id':'0','method':'is_multisig'}")
           [(txt "jsonrpc", VString (txt "2.0")); (txt "id", VString (txt "0"));
            (txt "result", VBool false)] (VBool false) _ _ _ _ _ _)).
  - lia.
  - vm_compute. reflexivity.
  - vm_compute. reflexivity.
  - reflexivity.
  - reflexivity.
  - reflexivity.
Defined.

(** ** The parser never runs out of fuel *)

Lemma skip_ws_length s : (List.length (JSON.skip_ws s) <= List.length s)%nat.
Proof.
  induction s as [|c s IH]; [apply Nat.le_refl|].
  cbn [JSON.skip_ws]. destruct (JSON.is_ws c); cbn [List.length]; lia.
Qed.

Lemma skip_ws_cons_length s c t :
  JSON.skip_ws s = c :: t -> (S (List.length t) <= List.length s)%nat.
Proof.
  intros H. pose proof (skip_ws_length s) as L. rewrite H in L. exact L.
Qed.

Lemma parse_string_length_upto n : forall s u t,
  (List.length s <= n)%nat ->
  JSON.parse_string s = Some (u, t) -> (List.length t < List.length s)%nat.
Proof.
  induction n as [|n IH]; intros s u t Hn H.
  { destruct s; [discriminate|cbn in Hn; lia]. }
  destruct s as [|c s]; [discriminate|].
  cbn [List.length] in Hn. cbn [JSON.parse_string] in H.
  destruct (c =? Ch.quote).
  { injection H as _ <-. cbn. lia. }
  destruct (c =? Ch.backslash).
  - destruct s as [|e s]; [discriminate|].
    destruct (e =? 117).
    + destruct s as [|h1 [|h2 [|h3 [|h4 s]]]]; try discriminate.
      destruct (JSON.hex4 h1 h2 h3 h4); [|discriminate].
      destruct (JSON.parse_string s) as [[u' t']|] eqn:E; [|discriminate].
      cbn in H. injection H as _ <-.
      apply IH in E; cbn [List.length] in *; lia.
    + destruct (JSON.unescape e); [|discriminate].
      destruct (JSON.parse_string s) as [[u' t']|] eqn:E; [|discriminate].
      cbn in H. injection H as _ <-.
      apply IH in E; cbn [List.length] in *; lia.
  - destruct (c <? 32); [discriminate|].
    destruct (JSON.parse_string s) as [[u' t']|] eqn:E; [|discriminate].
    cbn in H. injection H as _ <-.
    apply IH in E; cbn [List.length] in *; lia.
Qed.

Lemma parse_string_length s u t :
  JSON.parse_string s = Some (u, t) -> (List.length t < List.length s)%nat.
Proof. apply (parse_string_length_upto (List.length s)), Nat.le_refl. Qed.

Lemma strip_prefix_length p : forall s t,
  JSON.strip_prefix p s = Some t -> (List.length t <= List.length s)%nat.
Proof.
  induction p as [|a p IH]; intros s t H.
  - injection H as <-. apply Nat.le_refl.
  - destruct s as [|b s]; [discriminate|]. cbn [JSON.strip_prefix] in H.
    destruct (a =? b); [|discriminate]. apply IH in H. cbn. lia.
Qed.

Lemma span_digits_length s : forall ds t,
  JSON.span_digits s = (ds, t) -> (List.length t <= List.length s)%nat.
Proof.
  induction s as [|c s IH]; intros ds t H.
  - injection H as _ <-. apply Nat.le_refl.
  - cbn [JSON.span_digits] in H. destruct (is_digit c).
    + destruct (JSON.span_digits s) as [ds' t'] eqn:E.
      injection H as _ <-. specialize (IH _ _ eq_refl). cbn. lia.
    + injection H as _ <-. apply Nat.le_refl.
Qed.

Lemma parse_number_length s x t :
  JSON.parse_number s = Some (x, t) -> (List.length t <= List.length s)%nat.
Proof.
  unfold JSON.parse_number. intros H.
  set (p := match s with
            | [] => (false, s)
            | c :: t0 => if c =? Ch.minus then (true, t0) else (false, s)
            end) in H.
  assert (L1 : (List.length (snd p) <= List.length s)%nat).
  { subst p. destruct s as [|c s]; [apply Nat.le_refl|].
    destruct (c =? Ch.minus); cbn; lia. }
  destruct p as [neg s1]. cbn [snd] in L1.
  destruct (JSON.parse_int s1) as [[ds s2]|] eqn:E1; [|discriminate].
  assert (L2 : (List.length s2 <= List.length s1)%nat).
  { unfold JSON.parse_int in E1. destruct s1 as [|c s1']; [discriminate|].
    destruct (c =? 48).
    - injection E1 as _ <-. cbn. lia.
    - destruct (is_digit c); [|discriminate].
      destruct (JSON.span_digits (c :: s1')) as [a b] eqn:E.
      apply span_digits_length in E. injection E1 as _ <-. exact E. }
  destruct (JSON.parse_frac s2) as [[fs s3]|] eqn:E2; [|discriminate].
  assert (L3 : (List.length s3 <= List.length s2)%nat).
  { unfold JSON.parse_frac in E2. destruct s2 as [|c s2'].
    - injection E2 as _ <-. apply Nat.le_refl.
    - destruct (c =? Ch.dot).
      + destruct (JSON.span_digits s2') as [fs' r'] eqn:E.
        apply span_digits_length in E.
        destruct fs'; [discriminate|]. injection E2 as _ <-. cbn. lia.
      + injection E2 as _ <-. apply Nat.le_refl. }
  destruct (JSON.parse_exp s3) as [[e s4]|] eqn:E3; [|discriminate].
  assert (L4 : (List.length s4 <= List.length s3)%nat).
  { unfold JSON.parse_exp in E3. destruct s3 as [|c s3'].
    - injection E3 as _ <-. apply Nat.le_refl.
    - destruct ((c =? 101) || (c =? 69)).
      + set (q := match s3' with
                  | [] => (false, s3')
                  | g :: u =>
                      if g =? Ch.minus then (true, u)
                      else if g =? Ch.plus then (false, u) else (false, s3')
                  end) in E3.
        assert (Lq : (List.length (snd q) <= List.length s3')%nat).
        { subst q. destruct s3' as [|g u]; [apply Nat.le_refl|].
          destruct (g =? Ch.minus); [cbn; lia|].
          destruct (g =? Ch.plus); cbn; lia. }
        destruct q as [sg t']. cbn [snd] in Lq.
        destruct (JSON.span_digits t') as [es r'] eqn:E.
        apply span_digits_length in E.
        destruct es; [discriminate|]. injection E3 as _ <-. cbn. lia.
      + injection E3 as _ <-. apply Nat.le_refl. }
  injection H as _ <-. lia.
Qed.

Lemma parse_scalar_length s v t :
  JSON.parse_scalar s = JSON.Parsed v t -> (List.length t <= List.length s)%nat.
Proof.
  unfold JSON.parse_scalar. intros H. destruct s as [|c s]; [discriminate|].
  destruct (c =? Ch.quote).
  - destruct (JSON.parse_string s) as [[u t']|] eqn:E; [|discriminate].
    injection H as _ <-. apply parse_string_length in E. cbn. lia.
  - destruct (JSON.strip_prefix (txt "true") (c :: s)) as [r|] eqn:E1.
    { injection H as _ <-. apply strip_prefix_length in E1. exact E1. }
    destruct (JSON.strip_prefix (txt "false") (c :: s)) as [r|] eqn:E2.
    { injection H as _ <-. apply strip_prefix_length in E2. exact E2. }
    destruct (JSON.strip_prefix (txt "null") (c :: s)) as [r|] eqn:E3.
    { injection H as _ <-. apply strip_prefix_length in E3. exact E3. }
    destruct (JSON.parse_number (c :: s)) as [[x r]|] eqn:E4; [|discriminate].
    injection H as _ <-. apply parse_number_length in E4. exact E4.
Qed.

Lemma parse_scalar_fuel s : JSON.parse_scalar s <> JSON.OutOfFuel.
Proof.
  unfold JSON.parse_scalar. destruct s as [|c s]; [discriminate|].
  destruct (c =? Ch.quote).
  - destruct (JSON.parse_string s) as [[u t']|]; discriminate.
  - destruct (JSON.strip_prefix (txt "true") (c :: s)); [discriminate|].
    destruct (JSON.strip_prefix (txt "false") (c :: s)); [discriminate|].
    destruct (JSON.strip_prefix (txt "null") (c :: s)); [discriminate|].
    destruct (JSON.parse_number (c :: s)) as [[x r]|]; discriminate.
Qed.

(** What is left after a value, a member list or an element list is no
    longer than what was given. *)
Lemma parse_length fuel :
  (forall s v t,
      JSON.parse_value fuel s = JSON.Parsed v t ->
      (List.length t <= List.length s)%nat)
  /\ (forall acc s ps t,
        JSON.parse_members fuel acc s = JSON.Parsed ps t ->
        (List.length t <= List.length s)%nat)
  /\ (forall acc s es t,
        JSON.parse_elements fuel acc s = JSON.Parsed es t ->
        (List.length t <= List.length s)%nat).
Proof.
  induction fuel as [|f [IHv [IHm IHe]]]; [repeat split; discriminate|].
  split; [|split].
  - intros s v t H. cbn [JSON.parse_value] in H.
    destruct (JSON.skip_ws s) as [|c s1] eqn:E; [discriminate|].
    apply skip_ws_cons_length in E.
    destruct (c =? Ch.lbrace).
    { destruct (JSON.skip_ws s1) as [|c' s2] eqn:E'; [discriminate|].
      apply skip_ws_cons_length in E'.
      destruct (c' =? Ch.rbrace).
      - injection H as _ <-. lia.
      - destruct (JSON.parse_members f [] s1) as [ps r| |] eqn:Em; try discriminate.
        injection H as _ <-. apply IHm in Em. lia. }
    destruct (c =? Ch.lbracket).
    { destruct (JSON.skip_ws s1) as [|c' s2] eqn:E'; [discriminate|].
      apply skip_ws_cons_length in E'.
      destruct (c' =? Ch.rbracket).
      - injection H as _ <-. lia.
      - destruct (JSON.parse_elements f [] s1) as [es r| |] eqn:Ee; try discriminate.
        injection H as _ <-. apply IHe in Ee. lia. }
    apply parse_scalar_length in H. cbn [List.length] in H. lia.
  - intros acc s ps t H. cbn [JSON.parse_members] in H.
    destruct (JSON.skip_ws s) as [|c s1] eqn:E; [discriminate|].
    apply skip_ws_cons_length in E.
    destruct (c =? Ch.quote); [|discriminate].
    destruct (JSON.parse_string s1) as [[k t1]|] eqn:Es; [|discriminate].
    apply parse_string_length in Es.
    destruct (JSON.skip_ws t1) as [|c1 t2] eqn:E1; [discriminate|].
    apply skip_ws_cons_length in E1.
    destruct (c1 =? Ch.colon); [|discriminate].
    destruct (JSON.parse_value f t2) as [v t3| |] eqn:Ev; try discriminate.
    apply IHv in Ev.
    destruct (JSON.skip_ws t3) as [|c3 t4] eqn:E3; [discriminate|].
    apply skip_ws_cons_length in E3.
    destruct (c3 =? Ch.comma).
    { apply IHm in H. lia. }
    destruct (c3 =? Ch.rbrace); [|discriminate].
    injection H as _ <-. lia.
  - intros acc s es t H. cbn [JSON.parse_elements] in H.
    destruct (JSON.parse_value f s) as [v t1| |] eqn:Ev; try discriminate.
    apply IHv in Ev.
    destruct (JSON.skip_ws t1) as [|c t2] eqn:E; [discriminate|].
    apply skip_ws_cons_length in E.
    destruct (c =? Ch.comma).
    { apply IHe in H. lia. }
    destruct (c =? Ch.rbracket); [|discriminate].
    injection H as _ <-. lia.
Qed.

(** Fuel above twice the length of the text is never used up. *)
Lemma parse_fuel fuel :
  (forall s, (2 * List.length s + 1 <= fuel)%nat ->
             JSON.parse_value fuel s <> JSON.OutOfFuel)
  /\ (forall acc s, (2 * List.length s + 2 <= fuel)%nat ->
                    JSON.parse_members fuel acc s <> JSON.OutOfFuel)
  /\ (forall acc s, (2 * List.length s + 2 <= fuel)%nat ->
                    JSON.parse_elements fuel acc s <> JSON.OutOfFuel).
Proof.
  induction fuel as [|f [IHv [IHm IHe]]]; [repeat split; intros; lia|].
  destruct (parse_length f) as [Lv [Lm Le]].
  split; [|split].
  - intros s Hf. cbn [JSON.parse_value].
    destruct (JSON.skip_ws s) as [|c s1] eqn:E; [discriminate|].
    apply skip_ws_cons_length in E.
    destruct (c =? Ch.lbrace).
    { destruct (JSON.skip_ws s1) as [|c' s2] eqn:E'; [discriminate|].
      destruct (c' =? Ch.rbrace); [discriminate|].
      destruct (JSON.parse_members f [] s1) as [ps r| |] eqn:Em; try discriminate.
      exfalso. apply (IHm [] s1); [lia|exact Em]. }
    destruct (c =? Ch.lbracket).
    { destruct (JSON.skip_ws s1) as [|c' s2] eqn:E'; [discriminate|].
      destruct (c' =? Ch.rbracket); [discriminate|].
      destruct (JSON.parse_elements f [] s1) as [es r| |] eqn:Ee; try discriminate.
      exfalso. apply (IHe [] s1); [lia|exact Ee]. }
    apply parse_scalar_fuel.
  - intros acc s Hf. cbn [JSON.parse_members].
    destruct (JSON.skip_ws s) as [|c s1] eqn:E; [discriminate|].
    apply skip_ws_cons_length in E.
    destruct (c =? Ch.quote); [|discriminate].
    destruct (JSON.parse_string s1) as [[k t1]|] eqn:Es; [|discriminate].
    apply parse_string_length in Es.
    destruct (JSON.skip_ws t1) as [|c1 t2] eqn:E1; [discriminate|].
    apply skip_ws_cons_length in E1.
    destruct (c1 =? Ch.colon); [|discriminate].
    destruct (JSON.parse_value f t2) as [v t3| |] eqn:Ev; try discriminate.
    + apply Lv in Ev.
      destruct (JSON.skip_ws t3) as [|c3 t4] eqn:E3; [discriminate|].
      apply skip_ws_cons_length in E3.
      destruct (c3 =? Ch.comma).
      { apply IHm. lia. }
      destruct (c3 =? Ch.rbrace); discriminate.
    + exfalso. apply (IHv t2); [lia|exact Ev].
  - intros acc s Hf. cbn [JSON.parse_elements].
    destruct (JSON.parse_value f s) as [v t1| |] eqn:Ev; try discriminate.
    + apply Lv in Ev.
      destruct (JSON.skip_ws t1) as [|c t2] eqn:E; [discriminate|].
      apply skip_ws_cons_length in E.
      destruct (c =? Ch.comma).
      { apply IHe. lia. }
      destruct (c =? Ch.rbracket); discriminate.
    + exfalso. apply (IHv s); [lia|exact Ev].
Qed.

(** [JSON.parse_text] reports a syntax error only for malformed text. *)
Lemma parse_value_fuel text :
  JSON.parse_value (2 * List.length text + 2) text <> JSON.OutOfFuel.
Proof. apply (proj1 (parse_fuel _)). lia. Qed.

(** ** Serialization of the request *)

Lemma serialize_items_throws l e :
  Forall (fun v => forall e, JSON.serialize v = Throw e -> e = TypeError) l ->
  JSON.serialize_items JSON.serialize l = Throw e -> e = TypeError.
Proof.
  induction 1 as [|v l Hv _ IH]; simpl; [discriminate|].
  destruct (JSON.serialize v) as [r|e'] eqn:E; simpl.
  - destruct (JSON.serialize_items JSON.serialize l); simpl; [discriminate|].
    intros [= <-]. apply IH. reflexivity.
  - intros [= <-]. apply Hv. reflexivity.
Qed.

Lemma serialize_members_throws l e :
  Forall (fun kv => forall e, JSON.serialize (snd kv) = Throw e -> e = TypeError) l ->
  JSON.serialize_members JSON.serialize l = Throw e -> e = TypeError.
Proof.
  induction 1 as [|[k v] l Hv _ IH]; simpl; [discriminate|].
  simpl in Hv.
  destruct (JSON.serialize v) as [r|e'] eqn:E; simpl.
  - destruct (JSON.serialize_members JSON.serialize l); simpl; [discriminate|].
    intros [= <-]. apply IH. reflexivity.
  - intros [= <-]. apply Hv. reflexivity.
Qed.

(** The only exception serialization raises is the TypeError for a BigInt. *)
Lemma serialize_throws v : forall e, JSON.serialize v = Throw e -> e = TypeError.
Proof.
  induction v using value_nested_ind; intros e; simpl; try discriminate.
  - destruct b; discriminate.
  - intros [= <-]. reflexivity.
  - destruct (JSON.serialize_items JSON.serialize elems) eqn:E; simpl; [discriminate|].
    intros [= <-]. eapply serialize_items_throws; eassumption.
  - destruct (JSON.serialize_members JSON.serialize props) eqn:E; simpl; [discriminate|].
    intros [= <-]. eapply serialize_members_throws; eassumption.
Qed.

Lemma serialize_members_bigint props k z :
  In (k, VBigInt z) props ->
  JSON.serialize_members JSON.serialize props = Throw TypeError.
Proof.
  induction props as [|[k' v] props IH]; simpl; [tauto|].
  intros [H|H].
  - injection H as -> ->. reflexivity.
  - destruct (JSON.serialize v) as [r|e] eqn:E; simpl.
    + rewrite (IH H). reflexivity.
    + f_equal. eapply serialize_throws; eassumption.
Qed.

Lemma payload_bigint method props k z :
  In (k, VBigInt z) props ->
  NoderoWallet.payload method (VObject props) = Throw TypeError.
Proof.
  intros H. unfold NoderoWallet.payload, JSON.stringify, NoderoWallet.envelope.
  cbn [JSON.serialize JSON.serialize_members bind].
  rewrite (serialize_members_bigint _ _ _ H). reflexivity.
Qed.

(** C8: a BigInt among the parameters makes [JSON.stringify] throw a
    TypeError: no payload is produced and no request is sent. *)
Theorem C8_bigint_parameter_throws :
  forall (method : jsstr) (props : list (jsstr * value)) (k : jsstr) (z : Z)
         (x : exchange),
    In (k, VBigInt z) props ->
    NoderoWallet.payload method (VObject props) = Throw TypeError
    /\ NoderoWallet.request method (VObject props) x = Thrown TypeError.
Proof.
  intros method props k z x H.
  pose proof (payload_bigint method props k z H) as Hp.
  split; [exact Hp|]. unfold NoderoWallet.request. rewrite Hp. reflexivity.
Qed.

(** [createAddress(0, undefined, 2n)]. *)
Lemma C8_createAddress_witness :
  NoderoWallet.createAddress (VNumber (Num.of_Z 0)) VUndefined (VBigInt 2)
    (ResponseEnd (Some 200%Z) [Samples.balance_lines])
  = Thrown TypeError.
Proof.
  refine (proj2 (C8_bigint_parameter_throws (txt "create_address") _
                   (txt "count") 2 _ _)).
  simpl. right. right. left. reflexivity.
Defined.

Lemma payload_text method params t :
  JSON.serialize params = Return (Some t) ->
  NoderoWallet.payload method params
  = Return (txt "{'jsonrpc':'2.0','id':'0','method':" ++ JSON.quote_string method
            ++ txt ",'params':" ++ t ++ txt "}").
Proof.
  intros H. unfold NoderoWallet.payload, JSON.stringify, NoderoWallet.envelope.
  cbn [JSON.serialize JSON.serialize_members bind]. rewrite H.
  cbn [bind JSON.join]. f_equal.
  unfold JSON.quote_string. cbn [txt List.map list_ascii_of_string app].
  repeat (rewrite <- ?app_assoc; cbn [app]). reflexivity.
Qed.

Lemma payload_text_no_params method params :
  JSON.serialize params = Return None ->
  NoderoWallet.payload method params
  = Return (txt "{'jsonrpc':'2.0','id':'0','method':" ++ JSON.quote_string method
            ++ txt "}").
Proof.
  intros H. unfold NoderoWallet.payload, JSON.stringify, NoderoWallet.envelope.
  cbn [JSON.serialize JSON.serialize_members bind]. rewrite H.
  reflexivity.
Qed.

(** C9: the object serialized for a call has exactly the fields [jsonrpc],
    [id], [method] and [params], in this order, with [jsonrpc] the string
    [2.0] and [id] the string [0] whatever the call; the text sent spells
    them out, [params] being left out when it is [undefined]. *)
Theorem C9_envelope_is_fixed :
  forall (method : jsstr) (params : value),
    NoderoWallet.envelope method params
    = VObject [(txt "jsonrpc", VString (txt "2.0"));
               (txt "id", VString (txt "0"));
               (txt "method", VString method);
               (txt "params", params)]
    /\ (forall t,
          JSON.serialize params = Return (Some t) ->
          NoderoWallet.payload method params
          = Return (txt "{'jsonrpc':'2.0','id':'0','method':"
                    ++ JSON.quote_string method
                    ++ txt ",'params':" ++ t ++ txt "}"))
    /\ (JSON.serialize params = Return None ->
        NoderoWallet.payload method params
        = Return (txt "{'jsonrpc':'2.0','id':'0','method':"
                  ++ JSON.quote_string method ++ txt "}")).
Proof.
  intros method params. split; [reflexivity|]. split.
  - intros t. apply payload_text.
  - apply payload_text_no_params.
Qed.

(** The payload of [getAddress(0)]. *)
Lemma C9_get_address_witness :
  NoderoWallet.payload (txt "get_address")
    (VObject [(txt "account_index", VNumber (Num.of_Z 0));
              (txt "address_index", VUndefined)])
  = Return (txt "{'jsonrpc':'2.0','id':'0','method':'get_address','params':{'account_index':0}}").
Proof.
  rewrite (proj1 (proj2 (C9_envelope_is_fixed (txt "get_address")
             (VObject [(txt "account_index", VNumber (Num.of_Z 0));
                       (txt "address_index", VUndefined)])))
             (txt "{'account_index':0}")).
  - vm_compute. reflexivity.
  - vm_compute. reflexivity.
Defined.

(** ** Decoding sample bodies *)

Lemma match_digits_n_digit d post :
  is_digit d = true ->
  Reviver.match_digits_n (d :: Ch.letter_n :: post) = Some [d].
Proof. intros H. cbn. rewrite H. reflexivity. Qed.

(** Every string with a digit followed by [n] somewhere in it is turned
    into a BigInt by the reviver. *)
Lemma reviver_promotes pre d post :
  is_digit d = true ->
  exists z, Reviver.reviver (VString (pre ++ d :: Ch.letter_n :: post)) = VBigInt z.
Proof.
  intros H.
  assert (Hm : exists ds,
             Reviver.first_match (pre ++ d :: Ch.letter_n :: post) = Some ds).
  { induction pre as [|c pre IH].
    - exists [d]. cbn [app Reviver.first_match].
      rewrite (match_digits_n_digit d post H). reflexivity.
    - destruct IH as [ds IH]. cbn [app Reviver.first_match].
      destruct (Reviver.match_digits_n (c :: pre ++ d :: Ch.letter_n :: post))
        as [ds'|]; [exists ds'|exists ds]; auto. }
  destruct Hm as [ds Hm]. exists (Reviver.BigInt_of_digits ds).
  cbn [Reviver.reviver]. rewrite Hm. reflexivity.
Qed.

(** C2: a string field whose text is digits followed by [n] comes out of
    decoding as a BigInt, and so does any string that merely contains such a
    run, like the address of the README: the reviver's pattern is not
    anchored. *)
Theorem C2_string_field_promoted :
  NoderoWallet.request (txt "get_payments") VUndefined
    (ResponseEnd (Some 200%Z) [Samples.marker_like_string])
  = Resolved (VObject [(txt "payment_id", VBigInt 123)])
  /\ Reviver.reviver (VString Samples.readme_address) = VBigInt 5
  /\ NoderoWallet.request (txt "get_address") VUndefined
       (ResponseEnd (Some 200%Z) [Samples.address_body])
     = Resolved (VObject [(txt "address", VBigInt 5)]).
Proof. vm_compute. repeat split. Qed.

(** C3: with status 200 and the one-line body of the claim the call
    resolves, and [multisig_import_needed] is [false], but [balance] and
    [per_subaddress[0].balance] are values of type number, not BigInt: no
    integer of this body follows a colon and a space or ends its line, so
    the prepass leaves the body as it is. The same response with a field
    per line and a space after each colon gives the BigInt
    1125125151521. *)
Theorem C3_compact_balance_is_number :
  stringifyInts Samples.balance_compact = Samples.balance_compact
  /\ NoderoWallet.request (txt "get_balance") VUndefined
       (ResponseEnd (Some 200%Z) [Samples.balance_compact])
     = Resolved (VObject
         [(txt "balance", VNumber (Num.of_Z 1125125151521));
          (txt "unlocked_balance", VNumber (Num.of_Z 1125125151521));
          (txt "multisig_import_needed", VBool false);
          (txt "per_subaddress",
           VArray [VObject [(txt "balance",
                             VNumber (Num.of_Z 1125125151521))]])])
  /\ typeof (VNumber (Num.of_Z 1125125151521)) = TNumber
  /\ ~ (exists r,
          NoderoWallet.request (txt "get_balance") VUndefined
            (ResponseEnd (Some 200%Z) [Samples.balance_compact])
          = Resolved r
          /\ (typeof (get r (txt "balance")) = TBigint
              \/ typeof (get (element (get r (txt "per_subaddress")) 0)
                           (txt "balance")) = TBigint))
  /\ NoderoWallet.request (txt "get_balance") VUndefined
       (ResponseEnd (Some 200%Z) [Samples.balance_lines])
     = Resolved (VObject
         [(txt "balance", VBigInt 1125125151521);
          (txt "unlocked_balance", VBigInt 1125125151521);
          (txt "multisig_import_needed", VBool false);
          (txt "per_subaddress",
           VArray [VObject [(txt "balance", VBigInt 1125125151521)]])]).
Proof.
  split; [vm_compute; reflexivity|]. split; [vm_compute; reflexivity|].
  split; [reflexivity|]. split; [|vm_compute; reflexivity].
  intros [r [H Hb]]. vm_compute in H. injection H as <-.
  vm_compute in Hb. destruct Hb as [Hb|Hb]; discriminate Hb.
Qed.

(** C1: an integer that is an element of an array is not marked by the
    prepass, whether the array is written on one line or with an element
    per line, and neither is a field value that does not follow a colon and
    a space: [JSON.parse] reads them as numbers, 9007199254740993 comes out
    as 9007199254740992, and printing it does not give the literal back.
    The field written [  "fee": 9007199254740993] beside the array is
    exact. *)
Theorem C1_array_integer_read_as_double :
  decode Samples.amounts_in_array
  = Return (VObject
      [(txt "jsonrpc", VString (txt "2.0"));
       (txt "id", VString (txt "0"));
       (txt "result",
        VObject [(txt "amount_list",
                  VArray [VNumber (Num.of_Z 9007199254740992)])])])
  /\ NoderoWallet.request (txt "transfer_split") VUndefined
       (ResponseEnd (Some 200%Z) [Samples.amounts_in_array])
     = Resolved (VObject
         [(txt "amount_list",
           VArray [VNumber (Num.of_Z 9007199254740992)])])
  /\ decode Samples.amounts_per_line
     = Return (VObject
         [(txt "id", VString (txt "0"));
          (txt "jsonrpc", VString (txt "2.0"));
          (txt "result",
           VObject [(txt "amount_list",
                     VArray [VNumber (Num.of_Z 9007199254740992);
                             VNumber (Num.of_Z 1)]);
                    (txt "fee", VBigInt 9007199254740993)])])
  /\ decode Samples.large_compact
     = Return (VObject
         [(txt "jsonrpc", VString (txt "2.0"));
          (txt "id", VString (txt "0"));
          (txt "result",
           VObject [(txt "balance", VNumber (Num.of_Z 9007199254740992))])])
  /\ Num.toString (Num.of_Z 9007199254740992) = txt "9007199254740992"
  /\ ~ (exists r,
          decode Samples.amounts_in_array = Return r
          /\ element (get (get r (txt "result")) (txt "amount_list")) 0
             = VBigInt 9007199254740993)
  /\ ~ (exists r,
          decode Samples.amounts_per_line = Return r
          /\ element (get (get r (txt "result")) (txt "amount_list")) 0
             = VBigInt 9007199254740993)
  /\ ~ (exists r,
          decode Samples.large_compact = Return r
          /\ get (get r (txt "result")) (txt "balance")
             = VBigInt 9007199254740993).
Proof.
  split; [vm_compute; reflexivity|]. split; [vm_compute; reflexivity|].
  split; [vm_compute; reflexivity|]. split; [vm_compute; reflexivity|].
  split; [vm_compute; reflexivity|].
  repeat split; intros [r [H Hb]]; vm_compute in H; injection H as <-;
    vm_compute in Hb; discriminate Hb.
Qed.

(** ** The error constructor *)

(** C7, as stated, fails: the empty string, and an object whose message is
    the empty string, give an error with an empty message. *)
Lemma C7_empty_message_counterexample :
  message (MoneroRpcError (VString [])) = []
  /\ message (MoneroRpcError (VObject [(txt "message", VString [])])) = [].
Proof. split; reflexivity. Qed.

Lemma MoneroRpcError_object props :
  MoneroRpcError (VObject props)
  = match lookup (txt "message") props, lookup (txt "code") props with
    | Some (VString m), Some (VNumber x) =>
        {| message := m; code := Some x; errorMessage := Some m |}
    | Some (VString m), _ =>
        {| message := m; code := None; errorMessage := Some m |}
    | _, Some (VNumber x) =>
        {| message := txt "Code " ++ Num.toString x; code := Some x;
           errorMessage := None |}
    | _, _ =>
        {| message := txt "Unknown error"; code := None; errorMessage := None |}
    end.
Proof.
  unfold MoneroRpcError, ErrorCtor.run, ErrorCtor.object_case,
    ErrorCtor.code_case, ErrorCtor.message_case, ErrorCtor.string_case,
    has_property.
  rewrite !get_object.
  destruct (lookup (txt "message") props) as [[]|];
    destruct (lookup (txt "code") props) as [[]|]; reflexivity.
Qed.

(** C7, amended: a string gives itself as the message; an object with a
    string [message] gives that message and records it as [errorMessage],
    and records a numeric [code] too; an object with a numeric [code] and no
    string [message] gives [Code <code>] and records the code; every other
    value gives [Unknown error]. The message is empty only for the empty
    string and for an object whose [message] is the empty string. *)
Theorem C7_error_constructor_cases :
  forall response : value,
    (forall s, response = VString s ->
       MoneroRpcError response
       = {| message := s; code := None; errorMessage := None |})
    /\ (forall props m,
          response = VObject props ->
          lookup (txt "message") props = Some (VString m) ->
          message (MoneroRpcError response) = m
          /\ errorMessage (MoneroRpcError response) = Some m
          /\ code (MoneroRpcError response)
             = match lookup (txt "code") props with
               | Some (VNumber x) => Some x
               | _ => None
               end)
    /\ (forall props x,
          response = VObject props ->
          (forall m, lookup (txt "message") props <> Some (VString m)) ->
          lookup (txt "code") props = Some (VNumber x) ->
          MoneroRpcError response
          = {| message := txt "Code " ++ Num.toString x; code := Some x;
               errorMessage := None |})
    /\ ((forall s, response <> VString s) ->
        (forall props,
           response = VObject props ->
           (forall m, lookup (txt "message") props <> Some (VString m))
           /\ (forall x, lookup (txt "code") props <> Some (VNumber x))) ->
        MoneroRpcError response
        = {| message := txt "Unknown error"; code := None;
             errorMessage := None |})
    /\ (message (MoneroRpcError response) = [] ->
        response = VString []
        \/ exists props,
             response = VObject props
             /\ lookup (txt "message") props = Some (VString [])).
Proof.
  intros response.
  split; [|split; [|split; [|split]]].
  - intros s ->. reflexivity.
  - intros props m -> Hm. rewrite MoneroRpcError_object, Hm.
    destruct (lookup (txt "code") props) as [[]|]; repeat split.
  - intros props x -> Hm Hc. rewrite MoneroRpcError_object, Hc.
    destruct (lookup (txt "message") props) as [[]|]; try reflexivity.
    exfalso. eapply Hm. reflexivity.
  - intros Hs Ho. destruct response; try reflexivity.
    + exfalso. eapply Hs. reflexivity.
    + destruct (Ho props eq_refl) as [Hm Hc]. rewrite MoneroRpcError_object.
      destruct (lookup (txt "message") props) as [[]|];
        try (exfalso; eapply Hm; reflexivity);
        destruct (lookup (txt "code") props) as [[]|];
        try (exfalso; eapply Hc; reflexivity); reflexivity.
  - intros H. destruct response; try discriminate H.
    + left. cbn in H. subst. reflexivity.
    + right. exists props. split; [reflexivity|].
      rewrite MoneroRpcError_object in H.
      destruct (lookup (txt "message") props) as [[]|];
        destruct (lookup (txt "code") props) as [[]|];
        try discriminate H; cbn in H; subst; reflexivity.
Qed.

(** An object with a numeric code and nothing else. *)
Lemma C7_code_only_witness :
  MoneroRpcError (VObject [(txt "code", VNumber (Num.of_Z (-13)))])
  = {| message := txt "Code -13"; code := Some (Num.of_Z (-13));
       errorMessage := None |}.
Proof.
  rewrite (proj1 (proj2 (proj2 (C7_error_constructor_cases
             (VObject [(txt "code", VNumber (Num.of_Z (-13)))]))))
             [(txt "code", VNumber (Num.of_Z (-13)))] (Num.of_Z (-13))).
  - vm_compute. reflexivity.
  - reflexivity.
  - intros m. discriminate.
  - reflexivity.
Defined.

(** ** Decimal digits *)

Lemma is_digit_range c : is_digit c = true <-> 48 <= c <= 57.
Proof.
  unfold is_digit. rewrite andb_true_iff, !N.leb_le. reflexivity.
Qed.














(** ** The prepass on the line-per-field layout *)

Import Layout LayoutAux.

Lemma forallb_repeat {A} (f : A -> bool) x n :
  f x = true -> forallb f (repeat x n) = true.
Proof. intros H. induction n; simpl; [reflexivity|]. rewrite H. exact IHn. Qed.


Lemma forallb_weaken {A} (f g : A -> bool) l :
  (forall x, f x = true -> g x = true) ->
  forallb f l = true -> forallb g l = true.
Proof.
  intros H. induction l as [|a l IH]; [reflexivity|]. simpl.
  intros E. apply andb_true_iff in E. destruct E as [E1 E2].
  rewrite (H _ E1), (IH E2). reflexivity.
Qed.

Lemma replace_skip ds : forall b r,
  Prepass.replace_from b (List.length ds) (ds ++ r)
  = Prepass.replace_from (rev ds ++ b) 0 r.
Proof.
  induction ds as [|c ds IH]; intros b r; [reflexivity|].
  cbn [List.length app Prepass.replace_from rev]. rewrite IH, <- app_assoc.
  reflexivity.
Qed.

(** A run of digits followed by text the lookahead accepts is matched
    whole. *)
Lemma match_digits_run ds : forall r,
  ds <> [] ->
  forallb is_digit ds = true ->
  Prepass.match_digits r = None ->
  Prepass.lookahead r = true ->
  Prepass.match_digits (ds ++ r) = Some ds.
Proof.
  induction ds as [|c ds IH]; intros r Hne Hd Hr Hl; [congruence|].
  simpl in Hd. apply andb_true_iff in Hd. destruct Hd as [Hc Hd].
  cbn [app Prepass.match_digits]. rewrite Hc.
  destruct ds as [|c' ds].
  - cbn [app]. rewrite Hr, Hl. reflexivity.
  - rewrite (IH r); [reflexivity|discriminate|exact Hd|exact Hr|exact Hl].
Qed.

Lemma rewrites_int b ds r :
  Prepass.lookbehind b = true ->
  ds <> [] ->
  forallb is_digit ds = true ->
  Prepass.match_digits r = None ->
  Prepass.lookahead r = true ->
  rewrites b ds (Prepass.replacement ds) r.
Proof.
  intros Hb Hne Hd Hr Hl. unfold rewrites.
  pose proof (match_digits_run ds r Hne Hd Hr Hl) as Hm.
  destruct ds as [|c ds]; [congruence|].
  cbn [app Prepass.replace_from]. cbn [app] in Hm.
  unfold Prepass.match_at. rewrite Hb, Hm.
  cbn [List.length Nat.pred]. rewrite replace_skip.
  cbn [rev]. rewrite <- !app_assoc. reflexivity.
Qed.

Lemma rewrites_copy u : forall b r,
  no_match b u = true -> rewrites b u u r.
Proof.
  unfold rewrites.
  induction u as [|c u IH]; intros b r H; [reflexivity|].
  cbn [no_match] in H. apply andb_true_iff in H. destruct H as [Hc Hu].
  cbn [app Prepass.replace_from rev].
  assert (Hm : Prepass.match_at b (c :: u ++ r) = None).
  { unfold Prepass.match_at. destruct (Prepass.lookbehind b); [|reflexivity].
    simpl in Hc. rewrite orb_false_r in Hc. apply negb_true_iff in Hc.
    cbn [Prepass.match_digits]. rewrite Hc. reflexivity. }
  rewrite Hm, (IH _ _ Hu), <- app_assoc. reflexivity.
Qed.

Lemma rewrites_seq b u u' v v' r :
  rewrites b u u' (v ++ r) ->
  rewrites (rev u ++ b) v v' r ->
  rewrites b (u ++ v) (u' ++ v') r.
Proof.
  unfold rewrites. intros H1 H2.
  rewrite <- app_assoc, H1, H2, rev_app_distr, <- !app_assoc. reflexivity.
Qed.

Lemma no_match_nondigits u : forall b,
  forallb (fun c => negb (is_digit c)) u = true -> no_match b u = true.
Proof.
  induction u as [|c u IH]; intros b H; [reflexivity|].
  simpl in H. apply andb_true_iff in H. destruct H as [Hc Hu].
  cbn [no_match]. rewrite Hc, (IH _ Hu). reflexivity.
Qed.

Lemma lookbehind_first a b :
  (a =? Ch.space) = false -> Prepass.lookbehind (a :: b) = false.
Proof.
  intros H. destruct b as [|? [|? [|? ?]]]; cbn; rewrite ?H; reflexivity.
Qed.

Lemma lookbehind_second a1 a2 b :
  (a2 =? Ch.colon) = false -> Prepass.lookbehind (a1 :: a2 :: b) = false.
Proof.
  intros H. destruct b as [|? [|? ?]]; cbn; rewrite ?H, ?andb_false_r; reflexivity.
Qed.

Lemma lookbehind_third a1 a2 a3 b :
  (a3 =? Ch.quote) = false -> Prepass.lookbehind (a1 :: a2 :: a3 :: b) = false.
Proof.
  intros H. destruct b as [|? ?]; cbn; rewrite ?H, ?andb_false_r; reflexivity.
Qed.

Lemma lookbehind_line a1 a2 a3 l :
  Prepass.quote_before l = false ->
  Prepass.lookbehind (a1 :: a2 :: a3 :: l) = false.
Proof.
  intros H. destruct l as [|x l]; [reflexivity|].
  cbn [Prepass.lookbehind]. cbn [Prepass.quote_before] in H.
  destruct (x =? Ch.quote); [discriminate|].
  destruct (is_line_terminator x); cbn [negb].
  - rewrite ?andb_false_r. reflexivity.
  - rewrite H, ?andb_false_r. reflexivity.
Qed.

(** Inside text without a double quote, three characters or more after
    the last one, the lookbehind fails. *)
Lemma no_match_noquote u : forall a1 a2 a3 b,
  (a1 =? Ch.quote) = false -> (a2 =? Ch.quote) = false ->
  (a3 =? Ch.quote) = false ->
  forallb (fun c => negb (c =? Ch.quote)) u = true ->
  no_match (a1 :: a2 :: a3 :: b) u = true.
Proof.
  induction u as [|c u IH]; intros a1 a2 a3 b H1 H2 H3 H; [reflexivity|].
  simpl in H. apply andb_true_iff in H. destruct H as [Hc Hu].
  apply negb_true_iff in Hc.
  cbn [no_match]. rewrite (lookbehind_third _ _ _ _ H3). cbn [negb].
  rewrite orb_true_r. cbn [andb]. apply IH; assumption.
Qed.

(** Inside quoted text the prepass finds nothing, unless the text starts
    with a colon and a space after a quote on the same line. *)
Lemma no_match_quoted k b :
  forallb (fun c => negb (c =? Ch.quote)) k = true ->
  (forall k0 k1 rest,
      k = k0 :: k1 :: rest ->
      Prepass.lookbehind (k1 :: k0 :: Ch.quote :: b) = false) ->
  no_match (Ch.quote :: b) k = true.
Proof.
  intros Hq H2.
  assert (L0 : Prepass.lookbehind (Ch.quote :: b) = false)
    by (apply lookbehind_first; reflexivity).
  destruct k as [|k0 k]; [reflexivity|].
  cbn [no_match]. rewrite L0. cbn [negb]. rewrite orb_true_r. cbn [andb].
  assert (L1 : Prepass.lookbehind (k0 :: Ch.quote :: b) = false)
    by (apply lookbehind_second; reflexivity).
  destruct k as [|k1 k]; [reflexivity|].
  cbn [no_match]. rewrite L1. cbn [negb]. rewrite orb_true_r. cbn [andb].
  destruct k as [|k2 k]; [reflexivity|].
  cbn [no_match]. rewrite (H2 k0 k1 (k2 :: k) eq_refl). cbn [negb].
  rewrite orb_true_r. cbn [andb].
  simpl in Hq.
  apply andb_true_iff in Hq. destruct Hq as [Q0 Hq].
  apply andb_true_iff in Hq. destruct Hq as [Q1 Hq].
  apply andb_true_iff in Hq. destruct Hq as [Q2 Hq].
  apply negb_true_iff in Q0, Q1, Q2.
  apply no_match_noquote; assumption.
Qed.

Lemma quote_before_spaces n b :
  Prepass.quote_before (spaces n ++ b) = Prepass.quote_before b.
Proof. induction n as [|n IH]; [reflexivity|]. cbn. exact IH. Qed.


Lemma key_ok_chars k : key_ok k = true -> forallb key_char k = true.
Proof. destruct k; [discriminate|]. intros H. exact H. Qed.

Lemma key_char_plain c : key_char c = true -> plain_char c = true.
Proof. unfold key_char. intros H. apply andb_true_iff in H. tauto. Qed.

Lemma plain_char_noquote c : plain_char c = true -> negb (c =? Ch.quote) = true.
Proof.
  unfold plain_char. intros H.
  apply andb_true_iff in H. destruct H as [H _].
  apply andb_true_iff in H. tauto.
Qed.





Lemma no_match_spaces n b : no_match b (spaces n) = true.
Proof. apply no_match_nondigits, forallb_repeat. reflexivity. Qed.

Lemma rev_spaces n : rev (spaces n) = spaces n.
Proof. apply rev_repeat. Qed.

Lemma no_match_app u : forall b v,
  no_match b (u ++ v) = no_match b u && no_match (rev u ++ b) v.
Proof.
  induction u as [|c u IH]; intros b v; [reflexivity|].
  cbn [app no_match rev]. rewrite IH, <- app_assoc, andb_assoc. reflexivity.
Qed.











(** ** Parsing the marked body *)

Lemma skip_ws_spaces n s : JSON.skip_ws (spaces n ++ s) = JSON.skip_ws s.
Proof. induction n as [|n IH]; [reflexivity|]. cbn. exact IH. Qed.

Lemma skip_ws_line n s : JSON.skip_ws (10 :: spaces n ++ s) = JSON.skip_ws s.
Proof. cbn. apply skip_ws_spaces. Qed.

Lemma parse_string_plain u : forall r,
  forallb plain_char u = true ->
  JSON.parse_string (u ++ Ch.quote :: r) = Some (u, r).
Proof.
  induction u as [|c u IH]; intros r H; [reflexivity|].
  simpl in H. apply andb_true_iff in H. destruct H as [Hc Hu].
  unfold plain_char in Hc.
  apply andb_true_iff in Hc. destruct Hc as [Hc Hb].
  apply andb_true_iff in Hc. destruct Hc as [Hc Hq].
  apply negb_true_iff in Hb, Hq. apply N.leb_le in Hc.
  cbn [app JSON.parse_string]. rewrite Hq, Hb.
  destruct (N.ltb_spec c 32); [lia|].
  rewrite (IH _ Hu). reflexivity.
Qed.

Lemma parse_value_ws fuel c s :
  JSON.is_ws c = true -> JSON.parse_value fuel (c :: s) = JSON.parse_value fuel s.
Proof.
  intros H. destruct fuel as [|f]; [reflexivity|].
  cbn [JSON.parse_value JSON.skip_ws]. rewrite H. reflexivity.
Qed.

Lemma digit_plain c : is_digit c = true -> plain_char c = true.
Proof.
  intros H. apply is_digit_range in H. unfold plain_char, Ch.quote, Ch.backslash.
  destruct (N.leb_spec 32 c); [|lia].
  destruct (N.eqb_spec c 34); [lia|]. destruct (N.eqb_spec c 92); [lia|].
  reflexivity.
Qed.

Lemma parse_quoted fuel u r :
  forallb plain_char u = true ->
  JSON.parse_value (S fuel) (Ch.quote :: u ++ Ch.quote :: r)
  = JSON.Parsed (VString u) r.
Proof.
  intros H. cbn [JSON.parse_value JSON.skip_ws].
  change (JSON.is_ws Ch.quote) with false. cbv iota.
  change (Ch.quote =? Ch.lbrace) with false.
  change (Ch.quote =? Ch.lbracket) with false. cbv iota.
  cbn [JSON.parse_scalar]. change (Ch.quote =? Ch.quote) with true. cbv iota.
  rewrite (parse_string_plain _ _ H). reflexivity.
Qed.


(** One field: the key, the colon, the value, and then a comma or the
    closing brace. *)
Lemma parse_members_field f acc s k vtext v t3 :
  JSON.skip_ws s = Ch.quote :: k ++ Ch.quote :: Ch.colon :: Ch.space :: vtext ->
  forallb plain_char k = true ->
  JSON.parse_value f vtext = JSON.Parsed v t3 ->
  JSON.parse_members (S f) acc s
  = match JSON.skip_ws t3 with
    | [] => JSON.Malformed
    | c3 :: t4 =>
        if c3 =? Ch.comma then JSON.parse_members f (set_prop acc k v) t4
        else if c3 =? Ch.rbrace then JSON.Parsed (set_prop acc k v) t4
        else JSON.Malformed
    end.
Proof.
  intros Hs Hk Hv. cbn [JSON.parse_members]. rewrite Hs.
  change (Ch.quote =? Ch.quote) with true. cbv iota.
  rewrite (parse_string_plain _ _ Hk).
  cbn [JSON.skip_ws]. change (JSON.is_ws Ch.colon) with false. cbv iota.
  change (Ch.colon =? Ch.colon) with true. cbv iota.
  rewrite (parse_value_ws f Ch.space vtext eq_refl), Hv. reflexivity.
Qed.

Lemma skip_ws_field ind k vtext rest :
  JSON.skip_ws (10 :: field_line ind k vtext ++ rest)
  = Ch.quote :: k ++ Ch.quote :: Ch.colon :: Ch.space :: vtext ++ rest.
Proof.
  unfold field_line. rewrite <- app_assoc, skip_ws_line.
  cbn [app JSON.skip_ws]. change (JSON.is_ws Ch.quote) with false. cbv iota.
  rewrite <- app_assoc. reflexivity.
Qed.











(** ** The reviver on what was parsed *)









(** * Further properties *)

(** ** The prepass on arbitrary text *)

Lemma lt_not_digit c : is_line_terminator c = true -> is_digit c = false.
Proof.
  unfold is_line_terminator, is_digit. intros H.
  repeat (apply orb_true_iff in H; destruct H as [H|H]);
    apply N.eqb_eq in H; subst; reflexivity.
Qed.

Lemma lookahead_digit d t : is_digit d = true -> Prepass.lookahead (d :: t) = false.
Proof.
  intros H. pose proof H as H'. apply is_digit_range in H'.
  cbn [Prepass.lookahead Prepass.opt_nondigit_eol Prepass.at_eol]. rewrite H.
  assert (Hc : (d =? Ch.comma) = false) by (apply N.eqb_neq; unfold Ch.comma; lia).
  assert (Hl : is_line_terminator d = false).
  { destruct (is_line_terminator d) eqn:E; [|reflexivity].
    apply lt_not_digit in E. congruence. }
  rewrite Hc, Hl. reflexivity.
Qed.

(** A match is a non-empty run of digits at the head of the text, and the
    lookahead holds after it. *)
Lemma match_digits_prefix s : forall ds,
  Prepass.match_digits s = Some ds ->
  exists t, s = ds ++ t /\ ds <> [] /\ forallb is_digit ds = true
            /\ Prepass.lookahead t = true.
Proof.
  induction s as [|c s IH]; intros ds H; [discriminate|].
  cbn [Prepass.match_digits] in H. destruct (is_digit c) eqn:Hc; [|discriminate].
  destruct (Prepass.match_digits s) as [ds'|] eqn:E.
  - injection H as <-. destruct (IH ds' eq_refl) as (t & -> & Hne & Hd & Hl).
    exists t. cbn [forallb]. rewrite Hc, Hd. repeat split; auto. discriminate.
  - destruct (Prepass.lookahead s) eqn:Hl; [|discriminate].
    injection H as <-. exists s. cbn [forallb]. rewrite Hc.
    repeat split; auto. discriminate.
Qed.

(** One step of [replaceAll]: a match is replaced and the search resumes
    after it; otherwise one character is copied. *)
Lemma replace_from_match b s ds :
  Prepass.match_at b s = Some ds ->
  exists t, s = ds ++ t /\ ds <> [] /\ forallb is_digit ds = true
            /\ Prepass.lookahead t = true
            /\ Prepass.replace_from b 0 s
               = Prepass.replacement ds ++ Prepass.replace_from (rev ds ++ b) 0 t.
Proof.
  intros H. assert (Hm : Prepass.match_digits s = Some ds).
  { unfold Prepass.match_at in H. destruct (Prepass.lookbehind b); [exact H|discriminate]. }
  destruct (match_digits_prefix s ds Hm) as (t & -> & Hne & Hd & Hl).
  exists t. do 4 (split; [auto|]).
  destruct ds as [|c ds]; [congruence|].
  cbn [app Prepass.replace_from]. cbn [app] in H. rewrite H.
  cbn [List.length Nat.pred]. rewrite replace_skip.
  cbn [rev]. rewrite <- !app_assoc. reflexivity.
Qed.

Lemma replace_from_copy b c t :
  Prepass.match_at b (c :: t) = None ->
  Prepass.replace_from b 0 (c :: t) = c :: Prepass.replace_from (c :: b) 0 t.
Proof. intros H. cbn [Prepass.replace_from]. rewrite H. reflexivity. Qed.

Lemma lookbehind_space a b :
  Prepass.lookbehind (a :: b) = true -> a = Ch.space.
Proof.
  intros H. destruct (a =? Ch.space) eqn:E; [apply N.eqb_eq, E|].
  rewrite (lookbehind_first _ _ E) in H. discriminate.
Qed.

Lemma replace_unspaced s : forall b,
  (forall d t, s = d :: t -> is_digit d = true ->
               match b with a :: _ => a <> Ch.space | [] => True end) ->
  (forall pre d post, s = pre ++ Ch.space :: d :: post -> is_digit d = false) ->
  Prepass.replace_from b 0 s = s.
Proof.
  induction s as [|c s IH]; intros b Hb Hs; [reflexivity|].
  assert (Hm : Prepass.match_at b (c :: s) = None).
  { unfold Prepass.match_at. destruct (Prepass.lookbehind b) eqn:E; [|reflexivity].
    cbn [Prepass.match_digits]. destruct (is_digit c) eqn:Hc; [|reflexivity].
    exfalso. specialize (Hb c s eq_refl Hc). destruct b as [|a b]; [discriminate E|].
    apply Hb. apply (lookbehind_space _ _ E). }
  rewrite (replace_from_copy _ _ _ Hm). f_equal. apply IH.
  - intros d t -> Hd Hc. subst c.
    rewrite (Hs [] d t eq_refl) in Hd. discriminate.
  - intros pre d post ->. apply (Hs (c :: pre) d post). reflexivity.
Qed.

(** X1: text in which no digit directly follows a space is left as it is by
    the prepass; in particular text without spaces, and integers written
    with a sign. *)
Theorem stringifyInts_unspaced_unchanged :
  forall s : list N,
    (forall pre d post, s = pre ++ Ch.space :: d :: post -> is_digit d = false) ->
    stringifyInts s = s.
Proof.
  intros s H. apply replace_unspaced; [|exact H]. intros; exact I.
Qed.

(** The balance response on one line is not touched. *)
Lemma stringifyInts_unspaced_witness :
  stringifyInts Samples.balance_compact = Samples.balance_compact.
Proof.
  apply stringifyInts_unspaced_unchanged.
  assert (H : forallb (fun c => negb (c =? Ch.space)) Samples.balance_compact = true)
    by (vm_compute; reflexivity).
  intros pre d post E. rewrite E, forallb_app in H.
  apply andb_true_iff in H. destruct H as [_ H]. discriminate H.
Defined.

Lemma filter_replacement (keep : N -> bool) ds :
  keep Ch.quote = false -> keep Ch.letter_n = false ->
  filter keep (Prepass.replacement ds) = filter keep ds.
Proof.
  intros Hq Hn. unfold Prepass.replacement. cbn [filter]. rewrite Hq, filter_app.
  cbn [filter]. rewrite Hq, Hn. apply app_nil_r.
Qed.

Lemma replace_from_keeps (keep : N -> bool) n :
  keep Ch.quote = false -> keep Ch.letter_n = false ->
  forall s b, (List.length s <= n)%nat ->
    filter keep (Prepass.replace_from b 0 s) = filter keep s.
Proof.
  intros Hq Hn. induction n as [|n IH]; intros s b Hl.
  { destruct s; [reflexivity|cbn in Hl; lia]. }
  destruct s as [|c s]; [reflexivity|].
  destruct (Prepass.match_at b (c :: s)) as [ds|] eqn:E.
  - destruct (replace_from_match _ _ _ E) as (t & Es & Hne & _ & _ & ->).
    rewrite Es, !filter_app, (filter_replacement keep ds Hq Hn). f_equal.
    apply IH. rewrite Es, length_app in Hl.
    destruct ds; [congruence|]. cbn in Hl. lia.
  - rewrite (replace_from_copy _ _ _ E). cbn [filter].
    rewrite (IH s (c :: b)) by (cbn in Hl; lia). reflexivity.
Qed.

(** X2: the prepass only ever inserts double quotes and letters [n]: every
    other character of the text is kept, and kept in its place among the
    others. *)
Theorem stringifyInts_only_inserts_marks :
  forall s : list N,
    filter (fun c => negb (c =? Ch.quote) && negb (c =? Ch.letter_n))
      (stringifyInts s)
    = filter (fun c => negb (c =? Ch.quote) && negb (c =? Ch.letter_n)) s.
Proof.
  intros s. unfold stringifyInts.
  apply (replace_from_keeps _ (List.length s)); [reflexivity|reflexivity|apply Nat.le_refl].
Qed.

(** *** Line by line *)

Lemma lookahead_firstn s : Prepass.lookahead s = Prepass.lookahead (firstn 3 s).
Proof. destruct s as [|a [|c [|e t]]]; reflexivity. Qed.

Lemma lt_not_comma c : is_line_terminator c = true -> (c =? Ch.comma) = false.
Proof.
  unfold is_line_terminator. intros H.
  repeat (apply orb_true_iff in H; destruct H as [H|H]);
    apply N.eqb_eq in H; subst; reflexivity.
Qed.

Lemma lookahead_line_end t c r :
  is_line_terminator c = true ->
  Prepass.lookahead (t ++ c :: r) = Prepass.lookahead t.
Proof.
  intros H. pose proof (lt_not_digit c H) as Hd. pose proof (lt_not_comma c H) as Hc.
  destruct t as [|a [|d [|e t]]]; cbn [app]; [| | |reflexivity];
    cbn [Prepass.lookahead Prepass.opt_nondigit_eol Prepass.at_eol];
    rewrite ?H, ?Hd, ?Hc.
  - destruct (Prepass.at_eol r); reflexivity.
  - destruct (a =? Ch.comma), (is_digit a), (is_line_terminator a),
      (Prepass.at_eol r); reflexivity.
  - destruct (a =? Ch.comma), (is_digit a), (is_digit d), (is_line_terminator a),
      (is_line_terminator d); reflexivity.
Qed.

Lemma match_digits_line_end s c r :
  is_line_terminator c = true ->
  Prepass.match_digits (s ++ c :: r) = Prepass.match_digits s.
Proof.
  intros H. induction s as [|a s IH].
  - cbn. rewrite (lt_not_digit _ H). reflexivity.
  - cbn [app Prepass.match_digits]. rewrite IH, (lookahead_line_end _ _ _ H).
    reflexivity.
Qed.

Lemma quote_before_line_end l c r :
  is_line_terminator c = true ->
  Prepass.quote_before (l ++ c :: r) = Prepass.quote_before l.
Proof.
  intros H. induction l as [|a l IH].
  - cbn. rewrite H. destruct (c =? Ch.quote) eqn:E; [|reflexivity].
    apply N.eqb_eq in E. subst. discriminate H.
  - cbn [app Prepass.quote_before]. rewrite IH. reflexivity.
Qed.

Lemma lt_not_mark c :
  is_line_terminator c = true ->
  (c =? Ch.space) = false /\ (c =? Ch.colon) = false /\ (c =? Ch.quote) = false.
Proof.
  unfold is_line_terminator. intros H.
  repeat (apply orb_true_iff in H; destruct H as [H|H]);
    apply N.eqb_eq in H; subst; repeat split.
Qed.

Lemma lookbehind_line_end l c r :
  is_line_terminator c = true ->
  Prepass.lookbehind (l ++ c :: r) = Prepass.lookbehind l.
Proof.
  intros H. destruct (lt_not_mark c H) as (Hs & Hc & Hq).
  destruct l as [|a1 [|a2 [|a3 [|x l]]]]; cbn [app].
  - apply lookbehind_first, Hs.
  - apply lookbehind_second, Hc.
  - apply lookbehind_third, Hq.
  - destruct r; cbn; rewrite H, ?andb_false_r; reflexivity.
  - cbn [Prepass.lookbehind]. rewrite (quote_before_line_end _ _ _ H). reflexivity.
Qed.

Lemma replace_from_line_start s : forall l k c r,
  is_line_terminator c = true ->
  Prepass.replace_from (l ++ c :: r) k s = Prepass.replace_from l k s.
Proof.
  induction s as [|a s IH]; intros l k c r H; [reflexivity|].
  cbn [Prepass.replace_from]. unfold Prepass.match_at.
  rewrite (lookbehind_line_end _ _ _ H).
  change (a :: l ++ c :: r) with ((a :: l) ++ c :: r).
  destruct k as [|k]; [|apply IH, H].
  destruct (if Prepass.lookbehind l then Prepass.match_digits (a :: s) else None);
    rewrite (IH (a :: l)) by exact H; reflexivity.
Qed.

Lemma replace_from_line n c r :
  is_line_terminator c = true ->
  forall a b, (List.length a <= n)%nat ->
    Prepass.replace_from b 0 (a ++ c :: r)
    = Prepass.replace_from b 0 a ++ c :: Prepass.replace_from [] 0 r.
Proof.
  intros H. induction n as [|n IH]; intros a b Hl.
  - destruct a; [|cbn in Hl; lia]. cbn [app].
    rewrite replace_from_copy.
    + cbn [Prepass.replace_from app]. f_equal.
      apply (replace_from_line_start r [] 0%nat c b H).
    + unfold Prepass.match_at. cbn [Prepass.match_digits].
      rewrite (lt_not_digit _ H). destruct (Prepass.lookbehind b); reflexivity.
  - destruct a as [|x a]; [apply (IH [] b); cbn; lia|].
    assert (Em : Prepass.match_at b ((x :: a) ++ c :: r) = Prepass.match_at b (x :: a)).
    { unfold Prepass.match_at. rewrite (match_digits_line_end _ _ _ H). reflexivity. }
    destruct (Prepass.match_at b (x :: a)) as [ds|] eqn:E.
    + destruct (replace_from_match _ _ _ E) as (t & Es & Hne & _ & _ & Ho).
      destruct (replace_from_match _ _ _ Em) as (t' & Es' & _ & _ & _ & Ho').
      rewrite Es, <- app_assoc in Es'. apply app_inv_head in Es'. subst t'.
      rewrite Ho', Ho, <- app_assoc. f_equal.
      apply IH. rewrite Es, length_app in Hl.
      destruct ds; [congruence|]. cbn in Hl. lia.
    + cbn [app] in Em |- *.
      rewrite (replace_from_copy _ _ _ Em), (replace_from_copy _ _ _ E).
      cbn [app]. f_equal. apply IH. cbn in Hl. lia.
Qed.

(** X3: the prepass works line by line: what it makes of a text is what it
    makes of each of its lines, put together with the same line
    terminators. *)
Theorem stringifyInts_line_by_line :
  forall (a r : list N) (c : N),
    is_line_terminator c = true ->
    stringifyInts (a ++ c :: r) = stringifyInts a ++ c :: stringifyInts r.
Proof.
  intros a r c H. unfold stringifyInts.
  apply (replace_from_line (List.length a)); [exact H|apply Nat.le_refl].
Qed.

Lemma stringifyInts_line_by_line_witness :
  stringifyInts (txt "  'a': 12," ++ 13 :: txt "  'b': [3]")
  = txt "  'a': '12n'," ++ 13 :: txt "  'b': [3]".
Proof.
  rewrite (stringifyInts_line_by_line (txt "  'a': 12,") (txt "  'b': [3]") 13 eq_refl).
  vm_compute. reflexivity.
Defined.

(** *** Twice *)

Lemma digit_not_mark d :
  is_digit d = true ->
  (d =? Ch.space) = false /\ (d =? Ch.colon) = false /\ (d =? Ch.quote) = false.
Proof.
  intros H. apply is_digit_range in H.
  repeat split; apply N.eqb_neq; unfold Ch.space, Ch.colon, Ch.quote; lia.
Qed.

Lemma no_match_run ds : forall h b,
  (h =? Ch.space) = false ->
  forallb is_digit ds = true ->
  no_match (h :: b) ds = true.
Proof.
  induction ds as [|d ds IH]; intros h b Hh Hd; [reflexivity|].
  cbn [forallb] in Hd. apply andb_true_iff in Hd. destruct Hd as [Hd Hds].
  cbn [no_match]. rewrite (lookbehind_first _ _ Hh). cbn [negb].
  rewrite orb_true_r. cbn [andb].
  apply IH; [apply (digit_not_mark d Hd)|exact Hds].
Qed.

Lemma no_match_replacement ds b :
  forallb is_digit ds = true -> no_match b (Prepass.replacement ds) = true.
Proof.
  intros Hd. unfold Prepass.replacement.
  change (Ch.quote :: ds ++ [Ch.letter_n; Ch.quote])
    with ([Ch.quote] ++ ds ++ [Ch.letter_n; Ch.quote]).
  rewrite !no_match_app. cbn [rev app].
  rewrite (no_match_run ds Ch.quote b eq_refl Hd). reflexivity.
Qed.

Lemma firstn2_after_digit d e b t :
  is_digit d = true ->
  firstn 2 (Prepass.replace_from (e :: d :: b) 0 t) = firstn 2 t.
Proof.
  intros Hd. destruct (digit_not_mark d Hd) as (_ & Hc & Hq).
  destruct t as [|x [|y t]]; [reflexivity| |].
  - rewrite replace_from_copy; [reflexivity|].
    unfold Prepass.match_at. rewrite (lookbehind_second _ _ _ Hc). reflexivity.
  - rewrite replace_from_copy.
    2:{ unfold Prepass.match_at. rewrite (lookbehind_second _ _ _ Hc). reflexivity. }
    rewrite replace_from_copy.
    2:{ unfold Prepass.match_at. rewrite (lookbehind_third _ _ _ _ Hq). reflexivity. }
    reflexivity.
Qed.

Lemma lookahead_firstn_eq s s' :
  firstn 3 s = firstn 3 s' -> Prepass.lookahead s = Prepass.lookahead s'.
Proof. intros H. rewrite (lookahead_firstn s), (lookahead_firstn s'), H. reflexivity. Qed.

(** After a digit that was copied, the prepass's output matches where its
    input does. *)
Lemma match_digits_after_copy t : forall d b,
  is_digit d = true ->
  Prepass.match_digits (d :: Prepass.replace_from (d :: b) 0 t)
  = Prepass.match_digits (d :: t).
Proof.
  induction t as [|e t IH]; intros d b Hd; [reflexivity|].
  destruct (digit_not_mark d Hd) as (Hs & _ & _).
  rewrite replace_from_copy.
  2:{ unfold Prepass.match_at. rewrite (lookbehind_first _ _ Hs). reflexivity. }
  destruct (is_digit e) eqn:He.
  - cbn [Prepass.match_digits] in IH |- *. rewrite Hd.
    specialize (IH e (d :: b) He). cbn [Prepass.match_digits] in IH.
    rewrite He in IH |- *. rewrite IH.
    rewrite !(lookahead_digit e) by exact He. reflexivity.
  - cbn [Prepass.match_digits]. rewrite Hd, He.
    rewrite (lookahead_firstn_eq (e :: Prepass.replace_from (e :: d :: b) 0 t) (e :: t));
      [reflexivity|].
    cbn [firstn]. f_equal. apply (firstn2_after_digit d e b t Hd).
Qed.

Lemma comma_not_digit c : (c =? Ch.comma) = true -> is_digit c = false.
Proof. intros H. apply N.eqb_eq in H. subst. reflexivity. Qed.

Lemma lookahead_quiet t : Prepass.lookahead t = true -> PrepassAux.quiet t = true.
Proof.
  destruct t as [|a [|d [|e t]]]; [reflexivity| | |];
    cbn [Prepass.lookahead Prepass.opt_nondigit_eol Prepass.at_eol PrepassAux.quiet];
    intros H;
    destruct (a =? Ch.comma) eqn:Ea;
    try rewrite (comma_not_digit _ Ea) in *;
    destruct (is_line_terminator a); try reflexivity;
    destruct (is_digit a); cbn [negb andb orb] in H |- *; try discriminate H;
    try reflexivity;
    destruct (is_line_terminator d); try reflexivity;
    destruct (is_digit d); cbn [negb andb orb] in H |- *; try discriminate H;
    try reflexivity;
    destruct (is_line_terminator e); try reflexivity; try discriminate H.
Qed.

Lemma replace_twice n : forall s b b',
  (List.length s <= n)%nat ->
  (forall u, Prepass.lookbehind (u ++ b) = Prepass.lookbehind (u ++ b'))
  \/ PrepassAux.quiet s = true ->
  Prepass.replace_from b' 0 (Prepass.replace_from b 0 s)
  = Prepass.replace_from b 0 s.
Proof.
  induction n as [|n IH]; intros s b b' Hl Hi.
  { destruct s; [reflexivity|cbn in Hl; lia]. }
  destruct s as [|c s]; [reflexivity|].
  destruct (Prepass.match_at b (c :: s)) as [ds|] eqn:E.
  - destruct (replace_from_match _ _ _ E) as (t & Es & Hne & Hd & Hla & ->).
    pose proof (rewrites_copy (Prepass.replacement ds) b'
                  (Prepass.replace_from (rev ds ++ b) 0 t)
                  (no_match_replacement ds b' Hd)) as Hc.
    unfold rewrites in Hc. rewrite Hc. f_equal.
    apply IH.
    + rewrite Es, length_app in Hl. destruct ds; [congruence|]. cbn in Hl. lia.
    + right. apply lookahead_quiet, Hla.
  - rewrite (replace_from_copy _ _ _ E).
    assert (E' : Prepass.match_at b'
                   (c :: Prepass.replace_from (c :: b) 0 s) = None).
    { unfold Prepass.match_at in E |- *.
      destruct (is_digit c) eqn:Hc.
      2:{ cbn [Prepass.match_digits]. rewrite Hc.
          destruct (Prepass.lookbehind b'); reflexivity. }
      destruct Hi as [Hi|Hi].
      2:{ cbn [PrepassAux.quiet] in Hi. rewrite Hc in Hi.
          destruct (is_line_terminator c) eqn:Hlt; [|discriminate Hi].
          rewrite (lt_not_digit _ Hlt) in Hc. discriminate Hc. }
      pose proof (Hi []) as Hb. cbn [app] in Hb. rewrite <- Hb.
      destruct (Prepass.lookbehind b); [|reflexivity].
      rewrite (match_digits_after_copy s c b Hc). exact E. }
    rewrite (replace_from_copy _ _ _ E'). f_equal.
    apply IH; [cbn in Hl; lia|].
    destruct (is_line_terminator c) eqn:Hlt.
    + left. intros u. rewrite !(lookbehind_line_end u c) by exact Hlt. reflexivity.
    + destruct Hi as [Hi|Hi].
      * left. intros u.
        change (u ++ c :: b) with (u ++ [c] ++ b).
        change (u ++ c :: b') with (u ++ [c] ++ b').
        rewrite !app_assoc. apply Hi.
      * right. cbn [PrepassAux.quiet] in Hi. rewrite Hlt in Hi.
        apply andb_true_iff in Hi. tauto.
Qed.

(** X4: the prepass applied to its own output changes nothing. *)
Theorem stringifyInts_idempotent :
  forall s : list N, stringifyInts (stringifyInts s) = stringifyInts s.
Proof.
  intros s. unfold stringifyInts.
  apply (replace_twice (List.length s)); [apply Nat.le_refl|].
  left. reflexivity.
Qed.

(** ** The reviver on arbitrary strings *)

Lemma match_digits_n_prefix s : forall ds,
  Reviver.match_digits_n s = Some ds ->
  exists post, s = ds ++ Ch.letter_n :: post
               /\ ds <> [] /\ forallb is_digit ds = true.
Proof.
  induction s as [|c s IH]; intros ds H; [discriminate|].
  cbn [Reviver.match_digits_n] in H. destruct (is_digit c) eqn:Hc; [|discriminate].
  destruct (Reviver.match_digits_n s) as [ds'|] eqn:E.
  - injection H as <-. destruct (IH ds' eq_refl) as (post & -> & Hne & Hd).
    exists post. cbn [forallb]. rewrite Hc, Hd. repeat split. discriminate.
  - destruct s as [|c' s]; [discriminate|].
    destruct (c' =? Ch.letter_n) eqn:En; [|discriminate].
    injection H as <-. apply N.eqb_eq in En. subst c'.
    exists s. cbn [forallb]. rewrite Hc. repeat split. discriminate.
Qed.

Lemma first_match_occurrence s : forall ds,
  Reviver.first_match s = Some ds ->
  exists pre post, s = pre ++ ds ++ Ch.letter_n :: post
                   /\ ds <> [] /\ forallb is_digit ds = true.
Proof.
  induction s as [|c s IH]; intros ds H.
  - cbn in H. discriminate.
  - cbn [Reviver.first_match] in H.
    destruct (Reviver.match_digits_n (c :: s)) as [ds'|] eqn:E.
    + injection H as <-.
      destruct (match_digits_n_prefix _ _ E) as (post & Es & Hne & Hd).
      exists [], post. cbn [app]. auto.
    + destruct (IH ds H) as (pre & post & -> & Hne & Hd).
      exists (c :: pre), post. auto.
Qed.

Lemma first_match_none s :
  Reviver.first_match s = None ->
  forall pre d post, s = pre ++ d :: Ch.letter_n :: post -> is_digit d = false.
Proof.
  intros H pre d post ->. destruct (is_digit d) eqn:Hd; [|reflexivity].
  destruct (reviver_promotes pre d post Hd) as [z Hz].
  cbn [Reviver.reviver] in Hz. rewrite H in Hz. discriminate.
Qed.

(** X5: the reviver leaves a string as it is exactly when no digit in it is
    followed by [n]; otherwise the string is replaced by the BigInt written
    by a run of digits of the string that [n] follows, a number that is
    never negative. *)
Theorem reviver_string_cases :
  forall s : list N,
    (Reviver.reviver (VString s) = VString s
     <-> forall pre d post,
           s = pre ++ d :: Ch.letter_n :: post -> is_digit d = false)
    /\ (Reviver.reviver (VString s) <> VString s ->
        exists pre ds post,
          s = pre ++ ds ++ Ch.letter_n :: post
          /\ ds <> [] /\ forallb is_digit ds = true
          /\ Reviver.reviver (VString s) = VBigInt (Z.of_N (Dec.value ds))
          /\ (0 <= Z.of_N (Dec.value ds))%Z).
Proof.
  intros s. cbn [Reviver.reviver].
  destruct (Reviver.first_match s) as [ds|] eqn:E.
  - destruct (first_match_occurrence _ _ E) as (pre & post & Es & Hne & Hd).
    split.
    + split; [discriminate|].
      intros H. exfalso.
      destruct (exists_last Hne) as (ds' & d & Eds).
      assert (Hdd : is_digit d = true).
      { rewrite Eds, forallb_app in Hd. apply andb_true_iff in Hd.
        destruct Hd as [_ Hd]. cbn in Hd. rewrite andb_true_r in Hd. exact Hd. }
      rewrite (H (pre ++ ds') d post) in Hdd; [discriminate|].
      rewrite Es, Eds, <- !app_assoc. reflexivity.
    + intros _. exists pre, ds, post. repeat split; auto. apply N2Z.is_nonneg.
  - split.
    + split; [intros _; apply first_match_none, E|reflexivity].
    + intros H. congruence.
Qed.

(** ** What decoding can return *)

Lemma set_prop_forall (P : value -> bool) acc k v :
  forallb (fun kv => P (snd kv)) acc = true -> P v = true ->
  forallb (fun kv => P (snd kv)) (set_prop acc k v) = true.
Proof.
  intros Ha Hv. induction acc as [|[k' v'] acc IH]; cbn [set_prop forallb snd].
  - rewrite Hv. reflexivity.
  - cbn [forallb snd] in Ha. apply andb_true_iff in Ha. destruct Ha as [H1 H2].
    destruct (jsstr_eqb k k'); cbn [forallb snd].
    + rewrite Hv, H2. reflexivity.
    + rewrite H1, (IH H2). reflexivity.
Qed.

Lemma parse_scalar_json s v t :
  JSON.parse_scalar s = JSON.Parsed v t -> is_json v = true.
Proof.
  unfold JSON.parse_scalar. intros H. destruct s as [|c s]; [discriminate|].
  destruct (c =? Ch.quote).
  - destruct (JSON.parse_string s) as [[u t']|]; [|discriminate].
    injection H as <- _. reflexivity.
  - destruct (JSON.strip_prefix (txt "true") (c :: s)).
    { injection H as <- _. reflexivity. }
    destruct (JSON.strip_prefix (txt "false") (c :: s)).
    { injection H as <- _. reflexivity. }
    destruct (JSON.strip_prefix (txt "null") (c :: s)).
    { injection H as <- _. reflexivity. }
    destruct (JSON.parse_number (c :: s)) as [[x r]|]; [|discriminate].
    injection H as <- _. reflexivity.
Qed.

Lemma parse_json fuel :
  (forall s v t, JSON.parse_value fuel s = JSON.Parsed v t -> is_json v = true)
  /\ (forall acc s ps t,
        forallb (fun kv => is_json (snd kv)) acc = true ->
        JSON.parse_members fuel acc s = JSON.Parsed ps t ->
        forallb (fun kv => is_json (snd kv)) ps = true)
  /\ (forall acc s es t,
        forallb is_json acc = true ->
        JSON.parse_elements fuel acc s = JSON.Parsed es t ->
        forallb is_json es = true).
Proof.
  induction fuel as [|f [IHv [IHm IHe]]]; [repeat split; discriminate|].
  split; [|split].
  - intros s v t H. cbn [JSON.parse_value] in H.
    destruct (JSON.skip_ws s) as [|c s1]; [discriminate|].
    destruct (c =? Ch.lbrace).
    { destruct (JSON.skip_ws s1) as [|c' s2]; [discriminate|].
      destruct (c' =? Ch.rbrace).
      - injection H as <- _. reflexivity.
      - destruct (JSON.parse_members f [] s1) as [ps r| |] eqn:Em; try discriminate.
        injection H as <- _. cbn [is_json]. eapply IHm; [|exact Em]. reflexivity. }
    destruct (c =? Ch.lbracket).
    { destruct (JSON.skip_ws s1) as [|c' s2]; [discriminate|].
      destruct (c' =? Ch.rbracket).
      - injection H as <- _. reflexivity.
      - destruct (JSON.parse_elements f [] s1) as [es r| |] eqn:Ee; try discriminate.
        injection H as <- _. cbn [is_json]. eapply IHe; [|exact Ee]. reflexivity. }
    eapply parse_scalar_json, H.
  - intros acc s ps t Ha H. cbn [JSON.parse_members] in H.
    destruct (JSON.skip_ws s) as [|c s1]; [discriminate|].
    destruct (c =? Ch.quote); [|discriminate].
    destruct (JSON.parse_string s1) as [[k t1]|]; [|discriminate].
    destruct (JSON.skip_ws t1) as [|c1 t2]; [discriminate|].
    destruct (c1 =? Ch.colon); [|discriminate].
    destruct (JSON.parse_value f t2) as [v t3| |] eqn:Ev; try discriminate.
    apply IHv in Ev.
    destruct (JSON.skip_ws t3) as [|c3 t4]; [discriminate|].
    destruct (c3 =? Ch.comma).
    { eapply IHm; [|exact H]. apply set_prop_forall; assumption. }
    destruct (c3 =? Ch.rbrace); [|discriminate].
    injection H as <- _. apply set_prop_forall; assumption.
  - intros acc s es t Ha H. cbn [JSON.parse_elements] in H.
    destruct (JSON.parse_value f s) as [v t1| |] eqn:Ev; try discriminate.
    apply IHv in Ev.
    destruct (JSON.skip_ws t1) as [|c t2]; [discriminate|].
    assert (Hacc : forallb is_json (acc ++ [v]) = true).
    { rewrite forallb_app, Ha. cbn. rewrite Ev. reflexivity. }
    destruct (c =? Ch.comma).
    { eapply IHe; [|exact H]. exact Hacc. }
    destruct (c =? Ch.rbracket); [|discriminate].
    injection H as <- _. exact Hacc.
Qed.

Lemma internalize_revived v : is_json v = true -> revived (Reviver.internalize v) = true.
Proof.
  induction v as [| | | | | | | |elems IH|props IH] using value_nested_ind;
    intros H; try discriminate H; try reflexivity.
  - cbn [Reviver.internalize Reviver.reviver].
    destruct (Reviver.first_match s) as [ds|] eqn:E; cbn [revived].
    + apply Z.leb_le, N2Z.is_nonneg.
    + rewrite E. reflexivity.
  - cbn [Reviver.internalize Reviver.reviver revived]. cbn [is_json] in H.
    rewrite forallb_forall in H |- *. rewrite Forall_forall in IH.
    intros x Hx. apply in_map_iff in Hx. destruct Hx as (e & <- & He).
    apply IH; [exact He|apply H, He].
  - cbn [Reviver.internalize Reviver.reviver revived]. cbn [is_json] in H.
    rewrite forallb_forall in H |- *. rewrite Forall_forall in IH.
    intros x Hx. apply in_map_iff in Hx. destruct Hx as (kv & <- & Hkv).
    cbn [snd]. apply IH; [exact Hkv|apply H, Hkv].
Qed.

Lemma decode_gives_revived rawData v :
  decode rawData = Return v -> revived v = true.
Proof.
  intros H. unfold decode, JSON_parse, JSON.parse_text in H.
  destruct (JSON.parse_value (2 * List.length (stringifyInts rawData) + 2)
              (stringifyInts rawData)) as [v0 rest| |] eqn:E; try discriminate H.
  destruct (JSON.skip_ws rest); [|discriminate H].
  cbn [bind] in H. injection H as <-.
  apply (proj1 (parse_json _)) in E.
  apply (internalize_revived v0 E).
Qed.

(** X6: whatever the body, a value that comes out of decoding holds only
    [null], booleans, numbers, strings, BigInts, arrays and objects; its
    BigInts are never negative, and none of its strings has a digit followed
    by [n]. *)
Theorem decode_revived :
  forall (rawData : list N) (v : value),
    decode rawData = Return v ->
    revived v = true
    /\ forall s, v = VString s ->
         forall pre d post,
           s = pre ++ d :: Ch.letter_n :: post -> is_digit d = false.
Proof.
  intros rawData v H.
  pose proof (decode_gives_revived rawData v H) as Hr. split; [exact Hr|].
  intros s Es. rewrite Es in Hr. cbn [revived] in Hr.
  apply first_match_none. destruct (Reviver.first_match s); [discriminate|reflexivity].
Qed.

Lemma decode_revived_witness :
  revived (VObject [(txt "id", VString (txt "0"));
                    (txt "jsonrpc", VString (txt "2.0"));
                    (txt "result", VObject [(txt "address", VBigInt 5)])])
  = true.
Proof.
  apply (proj1 (decode_revived Samples.address_body _ ltac:(vm_compute; reflexivity))).
Defined.

(** ** More about the dispatcher *)

(** X7: a 2xx response whose decoded envelope has no [error], or a [null]
    one, and a truthy [result] makes the call resolve with exactly that
    [result]; an object or an array is truthy even when empty. *)
Theorem request_resolves_with_result :
  forall (c : Z) (chunks : list (list N)) (method : list N) (params : value)
         (p : list N) (props : list (list N * value)) (r : value),
    (200 <= c <= 299)%Z ->
    NoderoWallet.payload method params = Return p ->
    decode (NoderoWallet.rawData_of chunks) = Return (VObject props) ->
    not_nullish (get (VObject props) (txt "error")) = false ->
    lookup (txt "result") props = Some r ->
    (to_boolean r = true \/ (exists ps, r = VObject ps) \/ (exists es, r = VArray es)) ->
    NoderoWallet.request method params (ResponseEnd (Some c) chunks) = Resolved r.
Proof.
  intros c chunks method params p props r Hc Hp Hd He Hr Ht.
  rewrite (request_response _ _ _ _ _ Hp), (on_end_object _ _ _ Hc Hd).
  rewrite He, (lookup_get _ _ _ Hr).
  assert (H : to_boolean r = true).
  { destruct Ht as [H|[[ps ->]|[es ->]]]; [exact H|reflexivity|reflexivity]. }
  rewrite H. reflexivity.
Qed.

(** [store()] answered with an empty result and a [null] error. *)
Lemma request_resolves_store_witness :
  Facades.store
    (ResponseEnd (Some 200%Z)
       [lines ["{"; "  'error': null,"; "  'id': '0',"; "  'jsonrpc': '2.0',"];
        10 :: lines ["  'result': {"; "  }"; "}"]])
  = Resolved (VObject []).
Proof.
  apply (request_resolves_with_result 200 _ (txt "store") (VObject [])
           (txt "{'jsonrpc':'2.0','id':'0','method':'store','params':{}}")
           [(txt "error", VNull); (txt "id", VString (txt "0"));
            (txt "jsonrpc", VString (txt "2.0")); (txt "result", VObject [])]).
  - lia.
  - vm_compute. reflexivity.
  - vm_compute. reflexivity.
  - reflexivity.
  - reflexivity.
  - right. left. exists []. reflexivity.
Defined.

Lemma skip_ws_blank s : forallb JSON.is_ws s = true -> JSON.skip_ws s = [].
Proof.
  induction s as [|c s IH]; [reflexivity|]. cbn [forallb JSON.skip_ws].
  intros H. apply andb_true_iff in H. destruct H as [Hc Hs].
  rewrite Hc. apply IH, Hs.
Qed.

Lemma ws_not_digit c : JSON.is_ws c = true -> is_digit c = false.
Proof.
  unfold JSON.is_ws. intros H.
  repeat (apply orb_true_iff in H; destruct H as [H|H]);
    apply N.eqb_eq in H; subst; reflexivity.
Qed.

Lemma decode_blank s : forallb JSON.is_ws s = true -> decode s = Throw SyntaxError.
Proof.
  intros H. unfold decode, JSON_parse, stringifyInts.
  rewrite replace_unspaced.
  - unfold JSON.parse_text.
    replace (2 * List.length s + 2)%nat with (S (2 * List.length s + 1)) by lia.
    cbn [JSON.parse_value]. rewrite (skip_ws_blank s H). reflexivity.
  - intros; exact I.
  - intros pre d post E. apply ws_not_digit.
    rewrite E, forallb_app in H. apply andb_true_iff in H. destruct H as [_ H].
    cbn [forallb] in H. apply andb_true_iff in H. destruct H as [_ H].
    apply andb_true_iff in H. tauto.
Qed.

(** X8: a 2xx response whose body is empty, or white space only, makes
    [JSON.parse] throw inside the handler: the call neither resolves nor
    rejects. *)
Theorem request_blank_body_throws :
  forall (c : Z) (chunks : list (list N)) (method : list N) (params : value)
         (p : list N),
    (200 <= c <= 299)%Z ->
    NoderoWallet.payload method params = Return p ->
    forallb JSON.is_ws (NoderoWallet.rawData_of chunks) = true ->
    NoderoWallet.request method params (ResponseEnd (Some c) chunks)
    = Thrown SyntaxError.
Proof.
  intros c chunks method params p Hc Hp Hw.
  rewrite (request_response _ _ _ _ _ Hp).
  unfold NoderoWallet.on_end, NoderoWallet.on_end_with.
  rewrite (bad_status_in_range _ Hc), (decode_blank _ Hw). reflexivity.
Qed.

(** [getHeight()] answered with status 204 and no body at all. *)
Lemma request_blank_body_witness :
  Facades.getHeight (ResponseEnd (Some 204%Z) []) = Thrown SyntaxError.
Proof.
  apply (request_blank_body_throws 204 [] (txt "get_height") (VObject [])
           (txt "{'jsonrpc':'2.0','id':'0','method':'get_height','params':{}}")).
  - lia.
  - vm_compute. reflexivity.
  - reflexivity.
Defined.

Lemma rawData_single s : NoderoWallet.rawData_of [s] = s.
Proof. unfold NoderoWallet.rawData_of. cbn. apply app_nil_r. Qed.



(** *** A string value the prepass takes for an integer *)

Lemma colon_string_marked ind k ds :
  key_ok k = true ->
  ds <> [] ->
  forallb is_digit ds = true ->
  stringifyInts
    (Ch.lbrace :: 10
     :: field_line ind k (Ch.quote :: Ch.colon :: Ch.space :: ds ++ [Ch.quote])
     ++ [10; Ch.rbrace])
  = Ch.lbrace :: 10
    :: field_line ind k
         (Ch.quote :: Ch.colon :: Ch.space
          :: Prepass.replacement ds ++ [Ch.quote])
    ++ [10; Ch.rbrace].
Proof.
  intros Hk Hne Hd. unfold stringifyInts.
  assert (H : rewrites []
            ([Ch.lbrace; 10] ++ (spaces ind ++ [Ch.quote]) ++ k
             ++ [Ch.quote; Ch.colon; Ch.space; Ch.quote; Ch.colon; Ch.space]
             ++ ds ++ [Ch.quote; 10; Ch.rbrace])
            ([Ch.lbrace; 10] ++ (spaces ind ++ [Ch.quote]) ++ k
             ++ [Ch.quote; Ch.colon; Ch.space; Ch.quote; Ch.colon; Ch.space]
             ++ Prepass.replacement ds ++ [Ch.quote; 10; Ch.rbrace]) []).
  { apply rewrites_seq; [apply rewrites_copy; reflexivity|].
    apply rewrites_seq.
    { apply rewrites_copy. rewrite no_match_app, no_match_spaces. reflexivity. }
    rewrite rev_app_distr, rev_spaces.
    change ((rev [Ch.quote] ++ spaces ind) ++ rev [Ch.lbrace; 10] ++ [])
      with (Ch.quote :: spaces ind ++ [10; Ch.lbrace]).
    apply rewrites_seq.
    { apply rewrites_copy, no_match_quoted.
      - eapply forallb_weaken; [|apply key_ok_chars, Hk].
        intros c Hc. apply plain_char_noquote, key_char_plain, Hc.
      - intros k0 k1 rest _. apply lookbehind_line.
        rewrite quote_before_spaces. reflexivity. }
    apply rewrites_seq; [apply rewrites_copy; reflexivity|].
    apply rewrites_seq; [|apply rewrites_copy; reflexivity].
    apply rewrites_int; auto; reflexivity. }
  unfold rewrites in H. cbn [Prepass.replace_from] in H.
  rewrite !app_nil_r in H.
  unfold field_line.
  repeat (rewrite <- app_assoc in H; cbn [app] in H).
  repeat (rewrite <- app_assoc; cbn [app]).
  exact H.
Qed.

Lemma colon_string_malformed ind k ds fuel :
  key_ok k = true ->
  ds <> [] ->
  forallb is_digit ds = true ->
  JSON.parse_value (S (S (S fuel)))
    (Ch.lbrace :: 10
     :: field_line ind k
          (Ch.quote :: Ch.colon :: Ch.space
           :: Prepass.replacement ds ++ [Ch.quote])
     ++ [10; Ch.rbrace])
  = JSON.Malformed.
Proof.
  intros Hk Hne Hd.
  assert (Hkp : forallb plain_char k = true).
  { eapply forallb_weaken; [|apply key_ok_chars, Hk]. apply key_char_plain. }
  cbn [JSON.parse_value JSON.skip_ws].
  change (JSON.is_ws Ch.lbrace) with false. cbv iota.
  change (Ch.lbrace =? Ch.lbrace) with true. cbv iota.
  rewrite skip_ws_field.
  change (Ch.quote =? Ch.rbrace) with false. cbv iota.
  set (t3 := ds ++ Ch.letter_n :: Ch.quote :: Ch.quote :: [10; Ch.rbrace]).
  rewrite (parse_members_field (S fuel) [] _ k
             (Ch.quote :: [Ch.colon; Ch.space] ++ Ch.quote :: t3)
             (VString [Ch.colon; Ch.space]) t3).
  - subst t3. destruct ds as [|d ds]; [congruence|].
    cbn [forallb] in Hd. apply andb_true_iff in Hd. destruct Hd as [Hd _].
    pose proof Hd as Hr. apply is_digit_range in Hr.
    cbn [app JSON.skip_ws].
    assert (Hw : JSON.is_ws d = false).
    { destruct (JSON.is_ws d) eqn:E; [|reflexivity].
      apply ws_not_digit in E. congruence. }
    rewrite Hw.
    assert (H1 : (d =? Ch.comma) = false)
      by (apply N.eqb_neq; unfold Ch.comma; lia).
    assert (H2 : (d =? Ch.rbrace) = false)
      by (apply N.eqb_neq; unfold Ch.rbrace; lia).
    rewrite H1, H2. reflexivity.
  - rewrite skip_ws_field. subst t3. unfold Prepass.replacement.
    repeat (rewrite <- ?app_assoc; cbn [app]). reflexivity.
  - exact Hkp.
  - apply parse_quoted. reflexivity.
Qed.

(** X10: a string value that starts with a colon and a space and goes on with
    digits to its end, last on its line, is taken for an integer field by
    the prepass; the marked text is no JSON any more, and with a 2xx status
    the call neither resolves nor rejects. *)
Theorem colon_digits_string_breaks_decoding :
  forall (c : Z) (ind : nat) (k ds : list N) (method : list N)
         (params : value) (p : list N),
    (200 <= c <= 299)%Z ->
    NoderoWallet.payload method params = Return p ->
    key_ok k = true ->
    ds <> [] ->
    forallb is_digit ds = true ->
    let rawData :=
      Ch.lbrace :: 10
      :: field_line ind k (Ch.quote :: Ch.colon :: Ch.space :: ds ++ [Ch.quote])
      ++ [10; Ch.rbrace] in
    JSON.parse_text rawData
    = Return (VObject [(k, VString (Ch.colon :: Ch.space :: ds))])
    /\ decode rawData = Throw SyntaxError
    /\ NoderoWallet.request method params (ResponseEnd (Some c) [rawData])
       = Thrown SyntaxError.
Proof.
  intros c ind k ds method params p Hc Hp Hk Hne Hd rawData.
  assert (Hdec : decode rawData = Throw SyntaxError).
  { unfold decode, JSON_parse. subst rawData.
    rewrite (colon_string_marked ind k ds Hk Hne Hd).
    unfold JSON.parse_text.
    match goal with
    | |- context [JSON.parse_value ?f ?s] =>
        replace f with (S (S (S (f - 3)))) by (cbn [List.length]; lia)
    end.
    rewrite (colon_string_malformed ind k ds _ Hk Hne Hd). reflexivity. }
  split; [|split; [exact Hdec|]].
  - assert (Hkp : forallb plain_char k = true).
    { eapply forallb_weaken; [|apply key_ok_chars, Hk]. apply key_char_plain. }
    unfold JSON.parse_text. subst rawData.
    match goal with
    | |- context [JSON.parse_value ?f ?s] =>
        replace f with (S (S (S (f - 3)))) by (cbn [List.length]; lia)
    end.
    cbn [JSON.parse_value JSON.skip_ws].
    change (JSON.is_ws Ch.lbrace) with false. cbv iota.
    change (Ch.lbrace =? Ch.lbrace) with true. cbv iota.
    rewrite skip_ws_field.
    change (Ch.quote =? Ch.rbrace) with false. cbv iota.
    rewrite (parse_members_field _ [] _ k
               (Ch.quote :: (Ch.colon :: Ch.space :: ds) ++ Ch.quote :: [10; Ch.rbrace])
               (VString (Ch.colon :: Ch.space :: ds)) [10; Ch.rbrace]).
    + reflexivity.
    + rewrite skip_ws_field.
      repeat (rewrite <- ?app_assoc; cbn [app]). reflexivity.
    + exact Hkp.
    + apply parse_quoted. cbn [forallb].
      rewrite (forallb_weaken _ _ _ digit_plain Hd). reflexivity.
  - rewrite (request_response _ _ _ _ _ Hp), rawData_single.
    unfold NoderoWallet.on_end, NoderoWallet.on_end_with.
    rewrite (bad_status_in_range _ Hc), Hdec. reflexivity.
Qed.

(** [getTxNotes()] answered with a note whose text is a colon, a space
    and 5. *)
Lemma colon_digits_string_witness :
  Facades.getTxNotes VUndefined
    (ResponseEnd (Some 200%Z) [lines ["{"; "  'note': ': 5'"; "}"]])
  = Thrown SyntaxError.
Proof.
  apply (proj2 (proj2 (colon_digits_string_breaks_decoding 200 2 (txt "note") (txt "5")
           (txt "get_tx_notes") (VObject [(txt "txids", VUndefined)])
           (txt "{'jsonrpc':'2.0','id':'0','method':'get_tx_notes','params':{}}")
           ltac:(lia) ltac:(vm_compute; reflexivity) eq_refl
           ltac:(discriminate) eq_refl))).
Defined.

(** ** What is sent *)

Lemma serialize_items_bigint l :
  Forall (fun v =>
            (contains_bigint v = true -> JSON.serialize v = Throw TypeError)
            /\ (contains_bigint v = false -> exists r, JSON.serialize v = Return r)) l ->
  (existsb contains_bigint l = true ->
   JSON.serialize_items JSON.serialize l = Throw TypeError)
  /\ (existsb contains_bigint l = false ->
      exists rs, JSON.serialize_items JSON.serialize l = Return rs).
Proof.
  induction 1 as [|v l [Ht Hf] _ [IHt IHf]]; cbn [existsb JSON.serialize_items].
  - split; [discriminate|]. intros _. eexists. reflexivity.
  - destruct (contains_bigint v) eqn:E; cbn [orb].
    + split; [|discriminate]. intros _. rewrite (Ht eq_refl). reflexivity.
    + destruct (Hf eq_refl) as [r Hr]. rewrite Hr. cbn [bind].
      split; intros Hl.
      * rewrite (IHt Hl). reflexivity.
      * destruct (IHf Hl) as [rs Hrs]. rewrite Hrs. eexists. reflexivity.
Qed.

Lemma serialize_members_anywhere l :
  Forall (fun kv =>
            (contains_bigint (snd kv) = true ->
             JSON.serialize (snd kv) = Throw TypeError)
            /\ (contains_bigint (snd kv) = false ->
                exists r, JSON.serialize (snd kv) = Return r)) l ->
  (existsb (fun kv => contains_bigint (snd kv)) l = true ->
   JSON.serialize_members JSON.serialize l = Throw TypeError)
  /\ (existsb (fun kv => contains_bigint (snd kv)) l = false ->
      exists rs, JSON.serialize_members JSON.serialize l = Return rs).
Proof.
  induction 1 as [|[k v] l [Ht Hf] _ [IHt IHf]];
    cbn [existsb JSON.serialize_members snd] in *.
  - split; [discriminate|]. intros _. eexists. reflexivity.
  - destruct (contains_bigint v) eqn:E; cbn [orb].
    + split; [|discriminate]. intros _. rewrite (Ht eq_refl). reflexivity.
    + destruct (Hf eq_refl) as [r Hr]. rewrite Hr. cbn [bind].
      split; intros Hl.
      * rewrite (IHt Hl). reflexivity.
      * destruct (IHf Hl) as [rs Hrs]. rewrite Hrs. eexists. reflexivity.
Qed.

Lemma serialize_bigint v :
  (contains_bigint v = true -> JSON.serialize v = Throw TypeError)
  /\ (contains_bigint v = false -> exists r, JSON.serialize v = Return r).
Proof.
  induction v using value_nested_ind;
    cbn [contains_bigint JSON.serialize];
    try (split; [discriminate|intros _; eexists; reflexivity]).
  - split; [discriminate|]. intros _. destruct b; eexists; reflexivity.
  - split; [reflexivity|discriminate].
  - destruct (serialize_items_bigint elems H) as [Ht Hf].
    split; intros He.
    + rewrite (Ht He). reflexivity.
    + destruct (Hf He) as [rs Hrs]. rewrite Hrs. eexists. reflexivity.
  - destruct (serialize_members_anywhere props H) as [Ht Hf].
    split; intros He.
    + rewrite (Ht He). reflexivity.
    + destruct (Hf He) as [rs Hrs]. rewrite Hrs. eexists. reflexivity.
Qed.

Lemma payload_throws method params e :
  JSON.serialize params = Throw e ->
  NoderoWallet.payload method params = Throw e.
Proof.
  intros H. unfold NoderoWallet.payload, JSON.stringify, NoderoWallet.envelope.
  cbn [JSON.serialize JSON.serialize_members bind]. rewrite H. reflexivity.
Qed.

Lemma payload_returns method params r :
  JSON.serialize params = Return r ->
  exists p, NoderoWallet.payload method params = Return p.
Proof.
  intros H. destruct r as [t|].
  - rewrite (payload_text _ _ _ H). eexists. reflexivity.
  - rewrite (payload_text_no_params _ _ H). eexists. reflexivity.
Qed.

(** X11: serializing the request throws the TypeError exactly when the
    parameters hold a BigInt, at whatever depth of arrays and objects; the
    call then throws before anything is sent, whatever the exchange would
    have been, and with no BigInt inside a text to send always exists. *)
Theorem bigint_at_any_depth_throws :
  forall (method : list N) (params : value),
    (NoderoWallet.payload method params = Throw TypeError
     <-> contains_bigint params = true)
    /\ (contains_bigint params = true ->
        forall x, NoderoWallet.request method params x = Thrown TypeError)
    /\ (contains_bigint params = false ->
        exists p, NoderoWallet.payload method params = Return p).
Proof.
  intros method params.
  destruct (serialize_bigint params) as [Ht Hf].
  assert (Hp : contains_bigint params = true ->
               NoderoWallet.payload method params = Throw TypeError).
  { intros H. apply payload_throws, Ht, H. }
  assert (Hr : contains_bigint params = false ->
               exists p, NoderoWallet.payload method params = Return p).
  { intros H. destruct (Hf H) as [r E]. eapply payload_returns, E. }
  split; [split|split].
  - intros H. destruct (contains_bigint params); [reflexivity|].
    destruct (Hr eq_refl) as [p E]. congruence.
  - exact Hp.
  - intros H x. unfold NoderoWallet.request. rewrite (Hp H). reflexivity.
  - exact Hr.
Qed.

(** A BigInt among the address indices of [getBalance]. *)
Lemma bigint_at_any_depth_witness :
  Facades.getBalance (VNumber (Num.of_Z 0)) (VArray [VBigInt 1]) VUndefined
    VUndefined (ResponseEnd (Some 200%Z) [])
  = Thrown TypeError.
Proof.
  apply (proj1 (proj2 (bigint_at_any_depth_throws (txt "get_balance")
                         (VObject [(txt "account_index", VNumber (Num.of_Z 0));
                                   (txt "address_indices", VArray [VBigInt 1]);
                                   (txt "all_accounts", VUndefined);
                                   (txt "strict", VUndefined)])))).
  reflexivity.
Defined.

Lemma serialize_omitted v :
  omitted v = true -> JSON.serialize v = Return None.
Proof. destruct v; try discriminate; reflexivity. Qed.

Lemma serialize_members_filter props :
  JSON.serialize_members JSON.serialize props
  = JSON.serialize_members JSON.serialize
      (filter (fun kv => negb (omitted (snd kv))) props).
Proof.
  induction props as [|[k v] props IH]; [reflexivity|].
  cbn [filter snd]. destruct (omitted v) eqn:E; cbn [negb].
  - cbn [JSON.serialize_members]. rewrite (serialize_omitted v E). cbn [bind].
    rewrite IH.
    destruct (JSON.serialize_members JSON.serialize
                (filter (fun kv => negb (omitted (snd kv))) props));
      reflexivity.
  - cbn [JSON.serialize_members]. rewrite IH. reflexivity.
Qed.

(** X12: arguments that are [undefined] (or functions, or symbols) are not
    sent: the text written for an object of parameters is the text written
    for the object without those properties, and a call behaves the same
    with either. *)
Theorem undefined_arguments_not_sent :
  forall (method : list N) (props : list (list N * value)) (x : exchange),
    let sent := filter (fun kv => negb (omitted (snd kv))) props in
    NoderoWallet.payload method (VObject props)
    = NoderoWallet.payload method (VObject sent)
    /\ NoderoWallet.request method (VObject props) x
       = NoderoWallet.request method (VObject sent) x.
Proof.
  intros method props x sent.
  assert (H : NoderoWallet.payload method (VObject props)
              = NoderoWallet.payload method (VObject sent)).
  { unfold NoderoWallet.payload, JSON.stringify, NoderoWallet.envelope.
    cbn [JSON.serialize JSON.serialize_members].
    rewrite (serialize_members_filter props). reflexivity. }
  split; [exact H|]. unfold NoderoWallet.request. rewrite H. reflexivity.
Qed.

(** ** The error object *)

(** X13: whatever the constructor is given, it has called [super] by the time
    it returns; an [errorMessage] it records is the message of the error,
    and a [code] it records is the number under [code] in the response. *)
Theorem error_fields_agree :
  forall response : value,
    ErrorCtor.calledSuper (ErrorCtor.run response) = true
    /\ (forall m, errorMessage (MoneroRpcError response) = Some m ->
                  message (MoneroRpcError response) = m
                  /\ get response (txt "message") = VString m)
    /\ (forall c, code (MoneroRpcError response) = Some c ->
                  get response (txt "code") = VNumber c).
Proof.
  intros response.
  destruct response as [| | b | x | z | s | | | elems | props];
    try (split; [reflexivity|split; intros ? H; discriminate H]).
  split; [|rewrite MoneroRpcError_object, !get_object].
  - unfold ErrorCtor.run, ErrorCtor.object_case, ErrorCtor.code_case,
      ErrorCtor.message_case, ErrorCtor.string_case, ErrorCtor.default_case,
      has_property.
    rewrite !get_object.
    destruct (lookup (txt "message") props) as [[]|];
      destruct (lookup (txt "code") props) as [[]|]; reflexivity.
  - destruct (lookup (txt "message") props) as [[]|];
      destruct (lookup (txt "code") props) as [[]|];
      cbn [errorMessage message code];
      (split; [intros m H|intros c H]);
      try discriminate H; injection H as <-; try split; reflexivity.
Qed.

(** ** Escapes *)

Lemma hex_value_hex_digit n :
  n < 16 -> JSON.hex_value (JSON.hex_digit n) = Some n.
Proof.
  intros H. unfold JSON.hex_value, JSON.hex_digit.
  destruct (N.ltb_spec n 10);
    repeat match goal with
           | |- context [?a <=? ?b] => destruct (N.leb_spec a b)
           end;
    cbn [andb]; try lia; f_equal; lia.
Qed.

Lemma hex_places c :
  c < 65536 ->
  4096 * (c / 4096 mod 16) + 256 * (c / 256 mod 16) + 16 * (c / 16 mod 16)
  + c mod 16 = c.
Proof.
  intros H.
  replace (c / 256) with (c / 16 / 16) by (rewrite N.Div0.div_div; reflexivity).
  replace (c / 4096) with (c / 16 / 16 / 16)
    by (rewrite !N.Div0.div_div; reflexivity).
  pose proof (N.div_mod' c 16) as H0.
  pose proof (N.div_mod' (c / 16) 16) as H1.
  pose proof (N.div_mod' (c / 16 / 16) 16) as H2.
  pose proof (N.div_mod' (c / 16 / 16 / 16) 16) as H3.
  pose proof (N.mod_lt c 16) as L0.
  pose proof (N.mod_lt (c / 16) 16) as L1.
  pose proof (N.mod_lt (c / 16 / 16) 16) as L2.
  pose proof (N.mod_lt (c / 16 / 16 / 16) 16) as L3.
  generalize dependent (c / 16 / 16 / 16 / 16).
  generalize dependent ((c / 16 / 16 / 16) mod 16).
  generalize dependent (c / 16 / 16 / 16).
  generalize dependent ((c / 16 / 16) mod 16).
  generalize dependent (c / 16 / 16).
  generalize dependent ((c / 16) mod 16).
  generalize dependent (c / 16).
  generalize dependent (c mod 16).
  intros. lia.
Qed.

Lemma parse_unicode_escape c r :
  c < 65536 ->
  JSON.parse_string (JSON.unicode_escape c ++ r)
  = JSON.cons_result c (JSON.parse_string r).
Proof.
  intros H. unfold JSON.unicode_escape. cbn [app JSON.parse_string].
  change (Ch.backslash =? Ch.quote) with false.
  change (Ch.backslash =? Ch.backslash) with true.
  change (117 =? 117) with true. cbv iota.
  unfold JSON.hex4.
  rewrite !hex_value_hex_digit by (apply N.mod_lt; lia).
  rewrite (hex_places c H). reflexivity.
Qed.

Lemma parse_raw c r :
  32 <= c -> c <> 34 -> c <> 92 ->
  JSON.parse_string (c :: r) = JSON.cons_result c (JSON.parse_string r).
Proof.
  intros H1 H2 H3. cbn [JSON.parse_string]. unfold Ch.quote, Ch.backslash.
  destruct (N.eqb_spec c 34); [contradiction|].
  destruct (N.eqb_spec c 92); [contradiction|].
  destruct (N.ltb_spec c 32); [lia|]. reflexivity.
Qed.

Lemma parse_escape_char c r :
  JSON.parse_string (JSON.escape_char c ++ r)
  = JSON.cons_result c (JSON.parse_string r).
Proof.
  unfold JSON.escape_char.
  destruct (N.eqb_spec c 8) as [->|]; [reflexivity|].
  destruct (N.eqb_spec c 9) as [->|]; [reflexivity|].
  destruct (N.eqb_spec c 10) as [->|]; [reflexivity|].
  destruct (N.eqb_spec c 12) as [->|]; [reflexivity|].
  destruct (N.eqb_spec c 13) as [->|]; [reflexivity|].
  destruct (N.eqb_spec c 34) as [->|]; [reflexivity|].
  destruct (N.eqb_spec c 92) as [->|]; [reflexivity|].
  destruct (N.ltb_spec c 32).
  - apply parse_unicode_escape. lia.
  - apply parse_raw; assumption.
Qed.

Lemma surrogate_range c :
  JSON.is_high_surrogate c = true \/ JSON.is_low_surrogate c = true ->
  32 <= c /\ c <> 34 /\ c <> 92 /\ c < 65536.
Proof.
  unfold JSON.is_high_surrogate, JSON.is_low_surrogate.
  intros [H|H]; apply andb_true_iff in H; destruct H as [H1 H2];
    apply N.leb_le in H1, H2; lia.
Qed.

(** Every string is read back from its quoted form. *)
Lemma parse_quote_chars n : forall s r,
  (List.length s <= n)%nat ->
  JSON.parse_string (JSON.quote_chars s ++ Ch.quote :: r) = Some (s, r).
Proof.
  induction n as [|n IH]; intros [|c t] r Hn; try reflexivity;
    cbn [List.length] in Hn; [lia|].
  cbn [JSON.quote_chars].
  destruct (JSON.is_high_surrogate c) eqn:Eh.
  - destruct (surrogate_range c (or_introl Eh)) as (C1 & C2 & C3 & C4).
    destruct t as [|d t'].
    + rewrite (parse_unicode_escape c _ C4). reflexivity.
    + destruct (JSON.is_low_surrogate d) eqn:El.
      * destruct (surrogate_range d (or_intror El)) as (D1 & D2 & D3 & _).
        cbn [app List.length] in *.
        rewrite (parse_raw c _ C1 C2 C3), (parse_raw d _ D1 D2 D3).
        rewrite (IH t' r) by lia. reflexivity.
      * rewrite <- app_assoc, (parse_unicode_escape c _ C4).
        rewrite (IH (d :: t') r) by lia. reflexivity.
  - destruct (JSON.is_low_surrogate c) eqn:El.
    + destruct (surrogate_range c (or_intror El)) as (_ & _ & _ & C4).
      rewrite <- app_assoc, (parse_unicode_escape c _ C4).
      rewrite (IH t r) by lia. reflexivity.
    + rewrite <- app_assoc, parse_escape_char.
      rewrite (IH t r) by lia. reflexivity.
Qed.

Lemma parse_quote_string fuel s r :
  JSON.parse_value (S fuel) (JSON.quote_string s ++ r) = JSON.Parsed (VString s) r.
Proof.
  unfold JSON.quote_string. cbn [app]. rewrite <- app_assoc. cbn [app].
  cbn [JSON.parse_value JSON.skip_ws].
  change (JSON.is_ws Ch.quote) with false. cbv iota.
  change (Ch.quote =? Ch.lbrace) with false.
  change (Ch.quote =? Ch.lbracket) with false. cbv iota.
  cbn [JSON.parse_scalar]. change (Ch.quote =? Ch.quote) with true. cbv iota.
  rewrite (parse_quote_chars (List.length s) s r (le_n _)). reflexivity.
Qed.

(** ** Values *)

Lemma weight_pos v : (1 <= weight v)%nat.
Proof. destruct v; cbn [weight]; lia. Qed.

Lemma starts_value_app t u :
  starts_value t = true -> starts_value (t ++ u) = true.
Proof. destruct t; [discriminate|]. intros H. exact H. Qed.

Lemma reads_back_string s : reads_back (VString s).
Proof.
  exists (JSON.quote_string s). split; [reflexivity|]. split; [reflexivity|].
  split.
  - unfold JSON.quote_string. cbn [weight List.length]. lia.
  - intros [|f] r Hf; [cbn [weight] in Hf; lia|]. apply parse_quote_string.
Qed.

Lemma reads_back_literal v t :
  JSON.serialize v = Return (Some t) ->
  (forall f r, JSON.parse_value (S f) (t ++ r) = JSON.Parsed v r) ->
  starts_value t = true ->
  weight v = 1%nat ->
  reads_back v.
Proof.
  intros Hs Hp Hst Hw. exists t. split; [exact Hs|]. split; [exact Hst|].
  split.
  - rewrite Hw. destruct t; [discriminate|]. cbn [List.length]. lia.
  - intros [|f] r Hf; [lia|]. apply Hp.
Qed.

Lemma parse_array f s rest es r :
  starts_value s = true ->
  JSON.parse_elements f [] (s ++ rest) = JSON.Parsed es r ->
  JSON.parse_value (S f) (Ch.lbracket :: s ++ rest) = JSON.Parsed (VArray es) r.
Proof.
  intros Hs Hp. cbn [JSON.parse_value JSON.skip_ws].
  change (JSON.is_ws Ch.lbracket) with false. cbv iota.
  change (Ch.lbracket =? Ch.lbrace) with false.
  change (Ch.lbracket =? Ch.lbracket) with true. cbv iota.
  rewrite Hp. destruct s as [|c s]; [discriminate|].
  cbn [starts_value] in Hs. apply andb_true_iff in Hs. destruct Hs as [H1 H2].
  apply negb_true_iff in H1, H2.
  cbn [app JSON.skip_ws]. rewrite H1, H2. reflexivity.
Qed.

Lemma parse_object f s rest ps r :
  JSON.parse_members f [] (Ch.quote :: s ++ rest) = JSON.Parsed ps r ->
  JSON.parse_value (S f) (Ch.lbrace :: Ch.quote :: s ++ rest)
  = JSON.Parsed (VObject ps) r.
Proof.
  intros Hp. cbn [JSON.parse_value JSON.skip_ws].
  change (JSON.is_ws Ch.lbrace) with false. cbv iota.
  change (Ch.lbrace =? Ch.lbrace) with true.
  change (JSON.is_ws Ch.quote) with false. cbv iota.
  change (Ch.quote =? Ch.rbrace) with false. cbv iota.
  rewrite Hp. reflexivity.
Qed.

Lemma lookup_app k a b :
  lookup k (a ++ b)
  = match lookup k a with Some x => Some x | None => lookup k b end.
Proof.
  induction a as [|[k' v'] a IH]; [reflexivity|].
  cbn [app lookup]. destruct (jsstr_eqb k k'); [reflexivity|exact IH].
Qed.

Lemma set_prop_fresh acc k v :
  lookup k acc = None -> set_prop acc k v = acc ++ [(k, v)].
Proof.
  induction acc as [|[k' v'] acc IH]; [reflexivity|].
  cbn [lookup set_prop app]. destruct (jsstr_eqb k k'); [discriminate|].
  intros H. rewrite (IH H). reflexivity.
Qed.

Lemma distinct_keys_app acc k v l :
  distinct_keys (acc ++ (k, v) :: l) = true ->
  lookup k acc = None /\ distinct_keys ((acc ++ [(k, v)]) ++ l) = true.
Proof.
  intros H. split; [|rewrite <- app_assoc; exact H].
  induction acc as [|[k' v'] acc IH]; [reflexivity|].
  cbn [app distinct_keys] in H.
  destruct (lookup k' (acc ++ (k, v) :: l)) eqn:E; [discriminate|].
  cbn [lookup]. destruct (jsstr_eqb k k') eqn:Ek.
  - apply jsstr_eqb_eq in Ek. subst k'.
    rewrite lookup_app in E. destruct (lookup k acc); [discriminate|].
    cbn [lookup] in E. rewrite jsstr_eqb_refl in E. discriminate.
  - apply IH, H.
Qed.

Lemma parse_elements_join l :
  Forall reads_back l ->
  exists ps,
    JSON.serialize_items JSON.serialize l = Return ps
    /\ List.length ps = List.length l
    /\ (list_sum (List.map weight l) <= List.length (JSON.join ps))%nat
    /\ (l <> [] -> starts_value (JSON.join ps) = true)
    /\ forall fuel acc r,
         l <> [] ->
         (1 + list_sum (List.map weight l) <= fuel)%nat ->
         JSON.parse_elements fuel acc (JSON.join ps ++ Ch.rbracket :: r)
         = JSON.Parsed (acc ++ l) r.
Proof.
  induction 1 as [|v l (t & Hs & Hst & Hw & Hp) _
                     (ps & Hss & Hlen & Hsum & Hstart & Hpe)].
  - exists []. repeat split; try reflexivity; intros; congruence.
  - exists (t :: ps). cbn [JSON.serialize_items]. rewrite Hs, Hss. cbn [bind].
    split; [reflexivity|]. split; [cbn [List.length]; congruence|].
    pose proof (weight_pos v) as Hv.
    destruct l as [|v' l'].
    + destruct ps; [|discriminate]. cbn [JSON.join List.map list_sum fold_right] in *.
      split; [lia|]. split; [intros _; exact Hst|].
      intros [|f] acc r _ Hf; [lia|].
      cbn [JSON.parse_elements]. rewrite (Hp f _) by lia.
      cbn [JSON.skip_ws]. change (JSON.is_ws Ch.rbracket) with false. cbv iota.
      change (Ch.rbracket =? Ch.comma) with false.
      change (Ch.rbracket =? Ch.rbracket) with true. reflexivity.
    + destruct ps as [|p ps]; [discriminate|].
      change (JSON.join (t :: p :: ps)) with (t ++ Ch.comma :: JSON.join (p :: ps)).
      split.
      { rewrite length_app. cbn [List.length List.map list_sum fold_right] in *. lia. }
      split; [intros _; apply starts_value_app, Hst|].
      intros [|f] acc r _ Hf; [lia|].
      rewrite <- app_assoc. cbn [JSON.parse_elements].
      rewrite (Hp f _) by (cbn [List.map list_sum fold_right] in Hf; lia).
      change ((Ch.comma :: JSON.join (p :: ps)) ++ Ch.rbracket :: r)
        with (Ch.comma :: (JSON.join (p :: ps) ++ Ch.rbracket :: r)).
      cbn [JSON.skip_ws]. change (JSON.is_ws Ch.comma) with false. cbv iota.
      change (Ch.comma =? Ch.comma) with true. cbv iota.
      rewrite (Hpe f (acc ++ [v]) r) by
        (try discriminate; cbn [List.map list_sum fold_right] in Hf |- *; lia).
      rewrite <- app_assoc. reflexivity.
Qed.

Lemma parse_member f acc k t v rest :
  JSON.parse_value f (t ++ rest) = JSON.Parsed v rest ->
  lookup k acc = None ->
  JSON.parse_members (S f) acc ((JSON.quote_string k ++ Ch.colon :: t) ++ rest)
  = match JSON.skip_ws rest with
    | [] => JSON.Malformed
    | c3 :: t4 =>
        if c3 =? Ch.comma then JSON.parse_members f (acc ++ [(k, v)]) t4
        else if c3 =? Ch.rbrace then JSON.Parsed (acc ++ [(k, v)]) t4
        else JSON.Malformed
    end.
Proof.
  intros Hp Hk. unfold JSON.quote_string.
  repeat (rewrite <- app_assoc; cbn [app]).
  cbn [JSON.parse_members JSON.skip_ws].
  change (JSON.is_ws Ch.quote) with false. cbv iota.
  change (Ch.quote =? Ch.quote) with true. cbv iota.
  rewrite (parse_quote_chars (List.length k) k _ (le_n _)).
  cbn [JSON.skip_ws]. change (JSON.is_ws Ch.colon) with false. cbv iota.
  change (Ch.colon =? Ch.colon) with true. cbv iota.
  rewrite Hp, (set_prop_fresh acc k v Hk). reflexivity.
Qed.

Lemma parse_members_join l :
  Forall (fun kv => reads_back (snd kv)) l ->
  exists ps,
    JSON.serialize_members JSON.serialize l = Return ps
    /\ List.length ps = List.length l
    /\ (list_sum (List.map (fun kv => weight (snd kv)) l)
        <= List.length (JSON.join ps))%nat
    /\ (l <> [] -> exists s, JSON.join ps = Ch.quote :: s)
    /\ forall fuel acc r,
         l <> [] ->
         distinct_keys (acc ++ l) = true ->
         (1 + list_sum (List.map (fun kv => weight (snd kv)) l) <= fuel)%nat ->
         JSON.parse_members fuel acc (JSON.join ps ++ Ch.rbrace :: r)
         = JSON.Parsed (acc ++ l) r.
Proof.
  induction 1 as [|[k v] l (t & Hs & Hst & Hw & Hp) _
                     (ps & Hss & Hlen & Hsum & Hstart & Hpm)].
  - exists []. repeat split; try reflexivity; intros; congruence.
  - cbn [snd] in *.
    exists ((JSON.quote_string k ++ Ch.colon :: t) :: ps).
    cbn [JSON.serialize_members]. rewrite Hs, Hss. cbn [bind].
    split; [reflexivity|]. split; [cbn [List.length]; congruence|].
    pose proof (weight_pos v) as Hv.
    destruct l as [|kv' l'].
    + destruct ps; [|discriminate]. cbn [JSON.join List.map list_sum fold_right snd] in *.
      split; [rewrite length_app; cbn [List.length]; lia|].
      split; [intros _; eexists; reflexivity|].
      intros [|f] acc r _ Hd Hf; [lia|].
      destruct (distinct_keys_app acc k v [] Hd) as [Hk _].
      rewrite (parse_member f acc k t v _ (Hp f _ ltac:(lia)) Hk).
      cbn [JSON.skip_ws]. change (JSON.is_ws Ch.rbrace) with false. cbv iota.
      change (Ch.rbrace =? Ch.comma) with false.
      change (Ch.rbrace =? Ch.rbrace) with true. reflexivity.
    + destruct ps as [|p ps]; [discriminate|].
      change (JSON.join ((JSON.quote_string k ++ Ch.colon :: t) :: p :: ps))
        with ((JSON.quote_string k ++ Ch.colon :: t)
              ++ Ch.comma :: JSON.join (p :: ps)).
      split.
      { rewrite !length_app.
        cbn [List.length List.map list_sum fold_right snd] in *. lia. }
      split; [intros _; eexists; reflexivity|].
      intros [|f] acc r _ Hd Hf; [lia|].
      destruct (distinct_keys_app acc k v _ Hd) as [Hk Hd'].
      rewrite <- app_assoc.
      change ((Ch.comma :: JSON.join (p :: ps)) ++ Ch.rbrace :: r)
        with (Ch.comma :: (JSON.join (p :: ps) ++ Ch.rbrace :: r)).
      rewrite (parse_member f acc k t v _
                 (Hp f _ ltac:(cbn [List.map list_sum fold_right snd] in Hf; lia)) Hk).
      cbn [JSON.skip_ws]. change (JSON.is_ws Ch.comma) with false. cbv iota.
      change (Ch.comma =? Ch.comma) with true. cbv iota.
      rewrite (Hpm f (acc ++ [(k, v)]) r) by
        (try discriminate; try exact Hd';
         cbn [List.map list_sum fold_right snd] in Hf |- *; lia).
      rewrite <- app_assoc. reflexivity.
Qed.

Lemma textual_reads_back v : textual v = true -> reads_back v.
Proof.
  induction v using value_nested_ind; cbn [textual]; try discriminate;
    intros Ht.
  - apply (reads_back_literal VNull (txt "null")); reflexivity.
  - destruct b.
    + apply (reads_back_literal (VBool true) (txt "true")); reflexivity.
    + apply (reads_back_literal (VBool false) (txt "false")); reflexivity.
  - apply reads_back_string.
  - assert (Hall : Forall reads_back elems).
    { rewrite forallb_forall in Ht. rewrite Forall_forall in H |- *.
      intros x Hx. apply (H x Hx), Ht, Hx. }
    destruct (parse_elements_join elems Hall)
      as (ps & Hss & Hlen & Hsum & Hstart & Hpe).
    exists (Ch.lbracket :: JSON.join ps ++ [Ch.rbracket]).
    cbn [JSON.serialize]. rewrite Hss. cbn [bind].
    split; [reflexivity|]. split; [reflexivity|].
    split; [cbn [weight List.length]; rewrite length_app;
            cbn [List.length]; lia|].
    intros [|f] r Hf; [cbn [weight] in Hf; lia|].
    destruct elems as [|e elems].
    + destruct ps; [|discriminate]. reflexivity.
    + cbn [app]. rewrite <- app_assoc. cbn [app].
      apply parse_array; [apply Hstart; discriminate|].
      apply (Hpe f [] r); [discriminate|]. cbn [weight] in Hf. lia.
  - apply andb_true_iff in Ht. destruct Ht as [Ht Hd].
    assert (Hall : Forall (fun kv => reads_back (snd kv)) props).
    { rewrite forallb_forall in Ht. rewrite Forall_forall in H |- *.
      intros x Hx. apply (H x Hx), Ht, Hx. }
    destruct (parse_members_join props Hall)
      as (ps & Hss & Hlen & Hsum & Hstart & Hpm).
    exists (Ch.lbrace :: JSON.join ps ++ [Ch.rbrace]).
    cbn [JSON.serialize]. rewrite Hss. cbn [bind].
    split; [reflexivity|]. split; [reflexivity|].
    split; [cbn [weight List.length]; rewrite length_app;
            cbn [List.length]; lia|].
    intros [|f] r Hf; [cbn [weight] in Hf; lia|].
    destruct props as [|p props].
    + destruct ps; [|discriminate]. reflexivity.
    + cbn [app]. rewrite <- app_assoc. cbn [app].
      destruct (Hstart ltac:(discriminate)) as [s Hj].
      pose proof (Hpm f [] r ltac:(discriminate) Hd
                    ltac:(cbn [weight] in Hf; lia)) as Hm.
      rewrite Hj in Hm |- *. cbn [app] in Hm |- *.
      apply parse_object. exact Hm.
Qed.

(** X14: when the parameters are made of strings, booleans and [null], in
    arrays and in objects that name each property once, the text the call
    sends is JSON, and reading it gives back the request object with its
    four fields: every string, whatever its characters, is escaped so that
    it is read as itself. *)
Theorem request_text_reads_back :
  forall (method : list N) (params : value),
    textual params = true ->
    exists p,
      NoderoWallet.payload method params = Return p
      /\ JSON.parse_text p = Return (NoderoWallet.envelope method params).
Proof.
  intros method params Ht.
  assert (He : textual (NoderoWallet.envelope method params) = true).
  { unfold NoderoWallet.envelope. cbn [textual forallb snd]. rewrite Ht.
    reflexivity. }
  destruct (textual_reads_back _ He) as (t & Hs & _ & Hw & Hp).
  exists t. split.
  - unfold NoderoWallet.payload, JSON.stringify. rewrite Hs. reflexivity.
  - unfold JSON.parse_text.
    pose proof (Hp (2 * List.length t + 2)%nat [] ltac:(lia)) as H.
    rewrite app_nil_r in H. rewrite H. reflexivity.
Qed.

(** [openWallet] with a quote and a line feed in the file name. *)
Lemma request_text_reads_back_witness :
  exists p,
    NoderoWallet.payload (txt "open_wallet")
      (VObject [(txt "filename", VString (34 :: 10 :: txt "main"));
                (txt "password", VString (txt "pass\word"))])
    = Return p
    /\ JSON.parse_text p
       = Return (NoderoWallet.envelope (txt "open_wallet")
                   (VObject [(txt "filename", VString (34 :: 10 :: txt "main"));
                             (txt "password", VString (txt "pass\word"))])).
Proof.
  apply (request_text_reads_back (txt "open_wallet")
           (VObject [(txt "filename", VString (34 :: 10 :: txt "main"));
                     (txt "password", VString (txt "pass\word"))])).
  reflexivity.
Defined.

(** ** The length that is declared and the bytes that are written *)

Lemma byteLength_bounds n : forall s,
  (List.length s <= n)%nat ->
  (Wire.ascii s = true -> Wire.byteLength s = List.length s)
  /\ (Wire.ascii s = false -> (List.length s < Wire.byteLength s)%nat)
  /\ (List.length s <= Wire.byteLength s)%nat.
Proof.
  induction n as [|n IH]; intros [|c t] Hn; cbn [List.length] in Hn;
    try lia;
    try (split; [reflexivity|split; [discriminate|reflexivity]]).
  unfold Wire.ascii. cbn [forallb Wire.byteLength List.length].
  fold (Wire.ascii t).
  destruct (IH t ltac:(lia)) as (Ha & Hb & Hc).
  destruct (c <? 128); cbn [andb].
  - repeat split; intros; try rewrite Ha by assumption;
      try specialize (Hb ltac:(assumption)); lia.
  - destruct (c <? 2048); [repeat split; intros; try discriminate; lia|].
    destruct (JSON.is_high_surrogate c);
      [|repeat split; intros; try discriminate; lia].
    destruct t as [|d t']; [repeat split; intros; try discriminate;
                             cbn [List.length]; lia|].
    destruct (JSON.is_low_surrogate d);
      [|repeat split; intros; try discriminate; lia].
    cbn [List.length] in *.
    destruct (IH t' ltac:(lia)) as (_ & _ & Hc').
    repeat split; intros; try discriminate; lia.
Qed.

Lemma binary_ascii s : Wire.ascii s = true -> Wire.binary s = s.
Proof.
  unfold Wire.ascii, Wire.binary.
  induction s as [|c t IH]; [reflexivity|].
  cbn [forallb List.map]. intros H. apply andb_true_iff in H.
  destruct H as [Hc Ht]. rewrite (IH Ht). f_equal.
  apply N.ltb_lt in Hc. change 255 with (N.ones 8).
  rewrite N.land_ones. apply N.mod_small. change (2 ^ 8) with 256. lia.
Qed.

(** X15: the [Content-Length] header counts UTF-8 bytes, the body is written
    one byte per code unit. The header is never below the number of bytes
    written; the two agree exactly when the text is all ASCII, and then the
    bytes written are the text itself. *)
Theorem content_length_and_body :
  forall (method : list N) (params : value) (p : list N) (w : Wire.sent),
    NoderoWallet.payload method params = Return p ->
    Wire.send method params = Return w ->
    (List.length (Wire.body w) <= Wire.content_length w)%nat
    /\ (Wire.content_length w = List.length (Wire.body w)
        <-> Wire.ascii p = true)
    /\ (Wire.ascii p = true -> Wire.body w = p).
Proof.
  intros method params p w Hp Hw. unfold Wire.send in Hw. rewrite Hp in Hw.
  cbn [bind] in Hw. injection Hw as <-.
  cbn [Wire.content_length Wire.body].
  assert (Hl : List.length (Wire.binary p) = List.length p)
    by apply length_map.
  rewrite Hl.
  destruct (byteLength_bounds (List.length p) p (le_n _)) as (Ha & Hb & Hc).
  split; [exact Hc|]. split; [|apply binary_ascii].
  split; [|exact Ha].
  intros H. destruct (Wire.ascii p); [reflexivity|].
  specialize (Hb eq_refl). lia.
Qed.

(** [getHeight]: an ASCII request. *)
Lemma content_length_and_body_witness :
  exists w,
    Wire.send (txt "get_height") (VObject []) = Return w
    /\ Wire.content_length w = List.length (Wire.body w)
    /\ Wire.body w
       = txt "{'jsonrpc':'2.0','id':'0','method':'get_height','params':{}}".
Proof.
  eexists. split; [vm_compute; reflexivity|].
  destruct (content_length_and_body (txt "get_height") (VObject [])
              (txt "{'jsonrpc':'2.0','id':'0','method':'get_height','params':{}}")
              _ ltac:(vm_compute; reflexivity) ltac:(vm_compute; reflexivity))
    as (_ & H1 & H2).
  split; [apply H1; reflexivity|apply H2; reflexivity].
Defined.

Lemma escape_char_self c : 128 <= c -> JSON.escape_char c = [c].
Proof.
  intros H. unfold JSON.escape_char.
  repeat match goal with
         | |- context [?a =? ?b] => destruct (N.eqb_spec a b); [lia|]
         end.
  destruct (N.ltb_spec c 32); [lia|reflexivity].
Qed.

(** A character from U+0080 on that is no surrogate is quoted as itself. *)
Lemma quote_chars_keeps c n : forall s,
  (List.length s <= n)%nat ->
  128 <= c ->
  JSON.is_high_surrogate c = false ->
  JSON.is_low_surrogate c = false ->
  In c s -> In c (JSON.quote_chars s).
Proof.
  intros s Hn Hc Hh Hl. revert s Hn.
  induction n as [|n IH]; intros [|a t] Hn Hin; cbn [List.length] in Hn;
    try lia; try (destruct Hin; fail).
  cbn [JSON.quote_chars].
  destruct Hin as [->|Hin].
  - rewrite Hh, Hl, (escape_char_self c Hc). left. reflexivity.
  - destruct (JSON.is_high_surrogate a) eqn:Ea.
    + destruct t as [|d t']; [destruct Hin|].
      destruct (JSON.is_low_surrogate d) eqn:Ed.
      * destruct Hin as [->|Hin]; [congruence|].
        right. right. apply IH; [cbn [List.length] in Hn; lia|exact Hin].
      * apply in_or_app. right. apply IH; [lia|exact Hin].
    + destruct (JSON.is_low_surrogate a);
        apply in_or_app; right; (apply IH; [lia|exact Hin]).
Qed.

Lemma in_join c part : forall ps,
  In part ps -> In c part -> In c (JSON.join ps).
Proof.
  induction ps as [|p ps IH]; [intros []|].
  intros Hin Hc. destruct ps as [|q ps].
  - destruct Hin as [->|[]]. exact Hc.
  - change (JSON.join (p :: q :: ps)) with (p ++ Ch.comma :: JSON.join (q :: ps)).
    apply in_or_app. destruct Hin as [->|Hin]; [left; exact Hc|].
    right. right. apply IH; assumption.
Qed.

Lemma serialize_members_part props k s : forall ps,
  In (k, VString s) props ->
  JSON.serialize_members JSON.serialize props = Return ps ->
  In (JSON.quote_string k ++ Ch.colon :: JSON.quote_string s) ps.
Proof.
  induction props as [|[k' v] props IH]; intros ps Hin; [destruct Hin|].
  cbn [JSON.serialize_members].
  destruct (JSON.serialize v) as [r|e] eqn:Ev; cbn [bind]; [|discriminate].
  destruct (JSON.serialize_members JSON.serialize props) as [rs|e] eqn:Es;
    cbn [bind]; [|discriminate].
  intros [= <-].
  destruct Hin as [H|Hin].
  - injection H as -> ->. cbn [JSON.serialize] in Ev. injection Ev as <-.
    left. reflexivity.
  - specialize (IH rs Hin eq_refl). destruct r; [right|]; exact IH.
Qed.

Lemma ascii_in c s : In c s -> 128 <= c -> Wire.ascii s = false.
Proof.
  unfold Wire.ascii. induction s as [|a t IH]; intros Hin Hc; [destruct Hin|].
  cbn [forallb]. destruct Hin as [->|Hin].
  - destruct (N.ltb_spec c 128); [lia|reflexivity].
  - rewrite (IH Hin Hc). apply andb_false_r.
Qed.

(** X16: a string argument with a character from U+0080 on (no surrogate)
    is sent as it stands, so the header declares more bytes than the body
    has: the character is counted as two or three bytes and written as
    one. *)
Theorem non_ascii_argument_outgrows_body :
  forall (method : list N) (props : list (list N * value))
         (k s : list N) (c : N) (w : Wire.sent),
    In (k, VString s) props ->
    In c s ->
    128 <= c ->
    JSON.is_high_surrogate c = false ->
    JSON.is_low_surrogate c = false ->
    Wire.send method (VObject props) = Return w ->
    (List.length (Wire.body w) < Wire.content_length w)%nat
    /\ In (N.land c 255) (Wire.body w).
Proof.
  intros method props k s c w Hk Hs Hc Hh Hl Hw.
  unfold Wire.send in Hw.
  destruct (NoderoWallet.payload method (VObject props)) as [p|e] eqn:Hp;
    cbn [bind] in Hw; [|discriminate].
  injection Hw as <-. cbn [Wire.content_length Wire.body].
  assert (Hin : In c p).
  { destruct (JSON.serialize (VObject props)) as [[t|]|e] eqn:Et.
    - rewrite (payload_text _ _ _ Et) in Hp.
      assert (Ep : p = txt "{'jsonrpc':'2.0','id':'0','method':"
                       ++ JSON.quote_string method
                       ++ txt ",'params':" ++ t ++ txt "}") by congruence.
      rewrite Ep. clear Hp Ep.
      cbn [JSON.serialize] in Et.
      destruct (JSON.serialize_members JSON.serialize props) as [ps|e] eqn:Es;
        cbn [bind] in Et; [|discriminate].
      injection Et as <-.
      rewrite in_app_iff. right. rewrite in_app_iff. right.
      rewrite in_app_iff. right. rewrite in_app_iff. left.
      right. rewrite in_app_iff. left.
      apply (in_join c _ ps (serialize_members_part props k s ps Hk Es)).
      apply in_or_app. right. right. unfold JSON.quote_string. right.
      apply in_or_app. left.
      apply (quote_chars_keeps c (List.length s) s (le_n _) Hc Hh Hl Hs).
    - cbn [JSON.serialize] in Et.
      destruct (JSON.serialize_members JSON.serialize props); discriminate.
    - rewrite (payload_throws _ _ _ Et) in Hp. discriminate. }
  split.
  - unfold Wire.binary. rewrite length_map.
    apply (byteLength_bounds (List.length p) p (le_n _)).
    apply (ascii_in c p Hin Hc).
  - unfold Wire.binary. apply (in_map (fun c => N.land c 255) p c Hin).
Qed.

(** [createAddress] with a label of one character, U+00E9. *)
Lemma non_ascii_argument_witness :
  exists w,
    Wire.send (txt "create_address")
      (VObject [(txt "account_index", VNumber (Num.of_Z 0));
                (txt "label", VString [233]);
                (txt "count", VUndefined)])
    = Return w
    /\ (List.length (Wire.body w) < Wire.content_length w)%nat.
Proof.
  eexists. split; [vm_compute; reflexivity|].
  apply (proj1 (non_ascii_argument_outgrows_body (txt "create_address")
                  [(txt "account_index", VNumber (Num.of_Z 0));
                   (txt "label", VString [233]);
                   (txt "count", VUndefined)]
                  (txt "label") [233] 233 _
                  (or_intror (or_introl eq_refl)) (or_introl eq_refl)
                  ltac:(lia) eq_refl eq_refl
                  ltac:(vm_compute; reflexivity))).
Defined.

(** ** When a call resolves *)

Lemma good_status statusCode :
  NoderoWallet.bad_status statusCode = false ->
  exists c, statusCode = Some c /\ (200 <= c <= 299)%Z.
Proof.
  destruct statusCode as [c|]; [|discriminate]. cbn [NoderoWallet.bad_status].
  intros H. apply orb_false_iff in H. destruct H as [H1 H2].
  exists c. split; [reflexivity|].
  apply Z.ltb_ge in H1. rewrite Z.gtb_ltb in H2. apply Z.ltb_ge in H2. lia.
Qed.

Lemma revived_lookup k props v :
  forallb (fun kv => revived (snd kv)) props = true ->
  lookup k props = Some v -> revived v = true.
Proof.
  induction props as [|[k' v'] props IH]; [discriminate|].
  cbn [forallb lookup snd]. intros H. apply andb_true_iff in H.
  destruct H as [Hv Hp]. destruct (jsstr_eqb k k').
  - intros [= <-]. exact Hv.
  - apply IH, Hp.
Qed.

(** X17: a call resolves only after a response that ended with a status from
    200 to 299 and a body that decodes to an object with no [error] (or a
    [null] one); the value it resolves with is the [result] of that object,
    it is truthy, and it is as the reviver leaves values: no string with a
    digit before an [n], no negative BigInt. *)
Theorem resolves_only_with_result :
  forall (method : list N) (params : value) (x : exchange) (v : value),
    NoderoWallet.request method params x = Resolved v ->
    to_boolean v = true
    /\ revived v = true
    /\ exists c chunks props,
         x = ResponseEnd (Some c) chunks
         /\ (200 <= c <= 299)%Z
         /\ decode (NoderoWallet.rawData_of chunks) = Return (VObject props)
         /\ lookup (txt "result") props = Some v
         /\ not_nullish (get (VObject props) (txt "error")) = false.
Proof.
  intros method params x v H. unfold NoderoWallet.request in H.
  destruct (NoderoWallet.payload method params); [|discriminate].
  destruct x as [e|e|statusCode chunks]; try discriminate.
  unfold NoderoWallet.on_end, NoderoWallet.on_end_with in H.
  destruct (NoderoWallet.bad_status statusCode) eqn:Es; [discriminate|].
  destruct (good_status _ Es) as (c & -> & Hc).
  destruct (decode (NoderoWallet.rawData_of chunks)) as [data|] eqn:Ed;
    [|discriminate].
  destruct (not_nullish data); [|discriminate].
  destruct (not_nullish (get data (txt "error"))) eqn:Ee; [discriminate|].
  destruct (to_boolean (get data (txt "result"))) eqn:Et; [|discriminate].
  injection H as <-.
  pose proof (decode_gives_revived _ _ Ed) as Hr.
  destruct data as [| | | | | | | | |props]; try discriminate Et.
  rewrite get_object in Et |- *.
  destruct (lookup (txt "result") props) as [r|] eqn:El; [|discriminate Et].
  cbn [revived] in Hr.
  split; [exact Et|]. split; [exact (revived_lookup _ _ _ Hr El)|].
  exists c, chunks, props. repeat split; try assumption; try lia.
Qed.

(** [store] answered with an empty object. *)
Lemma resolves_only_with_result_witness :
  to_boolean (VObject []) = true /\ revived (VObject []) = true.
Proof.
  destruct (resolves_only_with_result (txt "store") (VObject [])
              (ResponseEnd (Some 200%Z)
                 [lines ["{"; "  'id': '0',"; "  'jsonrpc': '2.0',"];
                  lines [""; "  'result': {"; "  }"; "}"]])
              (VObject []) ltac:(vm_compute; reflexivity)) as (H1 & H2 & _).
  split; assumption.
Defined.

(** X18: a body that decodes to something other than an object never settles
    the call, whatever the status from 200 to 299: reading [error] off
    [null] throws the TypeError, and every other value has no [result], so
    the assertion fails. *)
Theorem non_object_body_throws :
  forall (c : Z) (method : list N) (params : value) (p : list N)
         (chunks : list (list N)) (data : value),
    (200 <= c <= 299)%Z ->
    NoderoWallet.payload method params = Return p ->
    decode (NoderoWallet.rawData_of chunks) = Return data ->
    (forall props, data <> VObject props) ->
    NoderoWallet.request method params (ResponseEnd (Some c) chunks)
    = Thrown (match data with VNull => TypeError | _ => AssertionError end).
Proof.
  intros c method params p chunks data Hc Hp Hd Hno.
  rewrite (request_response _ _ _ _ _ Hp).
  unfold NoderoWallet.on_end, NoderoWallet.on_end_with.
  rewrite (bad_status_in_range _ Hc), Hd.
  pose proof (decode_gives_revived _ _ Hd) as Hr.
  destruct data; try discriminate Hr; try reflexivity.
  exfalso. exact (Hno _ eq_refl).
Qed.

(** A daemon that answers [null], and one that answers with a list. *)
Lemma non_object_body_witness :
  Facades.getHeight (ResponseEnd (Some 200%Z) [txt "null"]) = Thrown TypeError
  /\ Facades.getHeight (ResponseEnd (Some 200%Z) [txt "[1, "; txt "2]"])
     = Thrown AssertionError.
Proof.
  split.
  - apply (non_object_body_throws 200 (txt "get_height") (VObject [])
             (txt "{'jsonrpc':'2.0','id':'0','method':'get_height','params':{}}")
             [txt "null"] VNull ltac:(lia) ltac:(vm_compute; reflexivity)
             ltac:(vm_compute; reflexivity) ltac:(discriminate)).
  - apply (non_object_body_throws 200 (txt "get_height") (VObject [])
             (txt "{'jsonrpc':'2.0','id':'0','method':'get_height','params':{}}")
             [txt "[1, "; txt "2]"]
             (VArray [VNumber (Num.of_Z 1); VNumber (Num.of_Z 2)])
             ltac:(lia) ltac:(vm_compute; reflexivity)
             ltac:(vm_compute; reflexivity) ltac:(discriminate)).
Defined.
